(** * Sync, conflict resolution and version history of the travel planner

    A shallow embedding of the cloud-sync handlers of [Settings.tsx], of the
    version-history handlers of the Planner component, and of the backup
    service they call, followed by the properties of the synchronisation
    engine proved (or refuted) on that embedding. *)

From Stdlib Require Import ZArith Ascii String.
From stdpp Require Import base strings pretty list gmap fin_maps.

Local Open Scope string_scope.
Local Open Scope Z_scope.

(** ** JavaScript values and string primitives *)

Module Js.

(** The values held by the fields of the objects the handlers touch.
    Numbers are the integers (budgets, timestamps); nested arrays and objects
    (itinerary, expenses, flights, media) are carried by their JSON text,
    which is also how they are compared by value. *)
Inductive JsVal : Type :=
  | VUndefined
  | VNull
  | VBool (b : bool)
  | VNum (n : Z)
  | VStr (s : string)
  | VJson (text : string).

#[global] Instance JsVal_eq_dec : EqDecision JsVal.
Proof. solve_decision. Defined.

(** ToBoolean: [undefined], [null], [false], [0] and the empty string are
    falsy, every object is truthy. *)
Definition truthy (v : JsVal) : bool :=
  match v with
  | VUndefined | VNull => false
  | VBool b => b
  | VNum n => negb (n =? 0)
  | VStr s => negb (String.eqb s "")
  | VJson _ => true
  end.

(** [a || b] on values. *)
Definition or_else (a b : JsVal) : JsVal := if truthy a then a else b.

(** [s || d] on strings: only the empty string is falsy. *)
Definition str_or (s d : string) : string :=
  if String.eqb s "" then d else s.

(** The string a template literal makes of a value (an object prints as
    [[object Object]]). *)
Definition toStr (v : JsVal) : string :=
  match v with
  | VUndefined => "undefined"
  | VNull => "null"
  | VBool b => if b then "true" else "false"
  | VNum n => pretty n
  | VStr s => s
  | VJson _ => "[object Object]"
  end.

(** Property read [o.k]: a missing property reads as [undefined]. *)
Definition prop (o : gmap string JsVal) (k : string) : JsVal :=
  default VUndefined (o !! k).

(** A text is held by its UTF-8 bytes. [trim] and [toUpperCase] below are
    the methods as they act on ASCII text; on other text the real methods
    also strip the white space beyond ASCII and map the letters beyond
    ASCII, so a statement about a whole handler that applies them to a text
    of any origin assumes [ascii_text]. *)
Definition ascii_char (c : ascii) : bool := (nat_of_ascii c <? 128)%nat.

(** The UTF-16 code units a byte of a UTF-8 text stands for: one for an
    ASCII byte and for the lead byte of a two- or three-byte sequence, two
    (a surrogate pair) for the lead byte of a four-byte sequence, none for a
    continuation byte. *)
Definition utf16_units (c : ascii) : nat :=
  let n := nat_of_ascii c in
  if (n <? 128)%nat then 1%nat
  else if (n <? 192)%nat then 0%nat
  else if (n <? 240)%nat then 1%nat
  else 2%nat.

(** [s.length]: the number of UTF-16 code units of the text. *)
Fixpoint utf16_length (s : string) : nat :=
  match s with
  | EmptyString => 0%nat
  | String c s' => (utf16_units c + utf16_length s')%nat
  end.

(** The property names every plain object inherits from
    [Object.prototype]. *)
Definition inherited (k : string) : bool :=
  bool_decide (k ∈ ["__proto__"; "constructor"; "hasOwnProperty"; "isPrototypeOf";
                    "propertyIsEnumerable"; "toLocaleString"; "toString"; "valueOf";
                    "__defineGetter__"; "__defineSetter__"; "__lookupGetter__";
                    "__lookupSetter__"]).

Definition is_lower (c : ascii) : bool :=
  let n := nat_of_ascii c in (97 <=? n)%nat && (n <=? 122)%nat.

Definition is_upper (c : ascii) : bool :=
  let n := nat_of_ascii c in (65 <=? n)%nat && (n <=? 90)%nat.

Definition is_digit (c : ascii) : bool :=
  let n := nat_of_ascii c in (48 <=? n)%nat && (n <=? 57)%nat.

Definition is_hyphen (c : ascii) : bool := (nat_of_ascii c =? 45)%nat.

(** The white space [String.prototype.trim] removes, on the ASCII range:
    TAB, LF, VT, FF, CR and SPACE. The method removes more (the no-break
    space, the byte order mark, the line and paragraph separators and the
    other space separators), none of it ASCII. *)
Definition is_space (c : ascii) : bool :=
  let n := nat_of_ascii c in ((9 <=? n)%nat && (n <=? 13)%nat) || (n =? 32)%nat.

Definition upper_char (c : ascii) : ascii :=
  if is_lower c then ascii_of_nat (nat_of_ascii c - 32) else c.

(** [s.toUpperCase()], on the ASCII range: the letters a to z. The method
    maps letters beyond ASCII too, some to more than one character. *)
Fixpoint toUpperCase (s : string) : string :=
  match s with
  | EmptyString => EmptyString
  | String c s' => String (upper_char c) (toUpperCase s')
  end.

Fixpoint trimStart (s : string) : string :=
  match s with
  | EmptyString => EmptyString
  | String c s' => if is_space c then trimStart s' else s
  end.

(** Drops the white space that ends [s]: a character is kept when it is not
    a space or when something is kept after it. *)
Fixpoint trimEnd (s : string) : string :=
  match s with
  | EmptyString => EmptyString
  | String c s' =>
      match trimEnd s' with
      | EmptyString => if is_space c then EmptyString else String c EmptyString
      | rest => String c rest
      end
  end.

(** [s.trim()], on ASCII text. *)
Definition trim (s : string) : string := trimEnd (trimStart s).

(** [s.substring(from, to)]: the arguments are swapped when [from > to] and
    both are clamped to the length of [s]; positions are counted in bytes,
    which on ASCII text are the code units. *)
Definition substring (from to : nat) (s : string) : string :=
  let a := Nat.min from to in
  let b := Nat.max from to in
  String.substring a (b - a) s.

Fixpoint all_chars (p : ascii -> bool) (s : string) : bool :=
  match s with
  | EmptyString => true
  | String c s' => p c && all_chars p s'
  end.

(** The character class [[A-Z0-9-]]. *)
Definition id_char (c : ascii) : bool := is_upper c || is_digit c || is_hyphen c.

(** ASCII text: every byte is an ASCII character. *)
Definition ascii_text (s : string) : Prop := all_chars ascii_char s = true.

(** [/^[A-Z0-9-]+$/.test(s)]: one character at least, all of the class. *)
Definition test_id_regex (s : string) : bool :=
  negb (String.eqb s "") && all_chars id_char s.

(** The double quote and the line feed, which the messages embed. *)
Definition dq : string := String (ascii_of_nat 34) EmptyString.
Definition nl : string := String (ascii_of_nat 10) EmptyString.

End Js.

Export Js.

(** ** Data model *)

(** A trip aggregate is a JavaScript object: its fields by name, [id] among
    them. *)
Abbreviation Trip := (gmap string JsVal).

(** Which copy of a conflicting trip is kept. *)
Inductive Side : Type := Local | Remote.

#[global] Instance Side_eq_dec : EqDecision Side.
Proof. solve_decision. Defined.

Abbreviation ResolutionMap := (gmap string Side).

(** The exportable state of one sync identifier: the trips keyed by id, the
    profile and the loose calendar events. *)
Record Dataset : Type := mkDataset {
  trips : gmap string Trip;
  profile : gmap string JsVal;
  customEvents : gmap string (gmap string JsVal)
}.

Definition empty_dataset : Dataset :=
  {| trips := ∅; profile := ∅; customEvents := ∅ |}.

Record ConflictItem : Type := mkConflict {
  tripId : string;
  tripTitle : JsVal;
  field : string;
  localValue : JsVal;
  remoteValue : JsVal
}.

Record TripVersion : Type := mkVersion {
  v_id : Z;
  v_tripId : JsVal;
  v_timestamp : Z;
  v_note : string;
  v_data : Trip
}.

(** ** The snapshot differ *)

Module Differ.

(** Modelled from the spec: the backup service ([services/supabaseService])
    is not among the sources. The fields the Snapshot Differ compares are
    title, location, dates, budget, itinerary digest and expense digest. *)
Definition comparable_fields : list string :=
  ["title"; "location"; "startDate"; "endDate"; "budget"; "itinerary"; "expenses"].

(** Modelled from the spec: one conflict item per compared field whose
    local and remote values differ by value. *)
Definition diff_trip (id : string) (l r : Trip) : list ConflictItem :=
  omap (λ f, if decide (prop l f = prop r f) then None
             else Some (mkConflict id (prop l "title") f (prop l f) (prop r f)))
       comparable_fields.

(** Modelled from the spec: two copies of a trip conflict when a compared
    field differs, which is when the differ has an item for them. *)
Definition conflicting (l r : Trip) : bool :=
  existsb (λ f, negb (bool_decide (prop l f = prop r f))) comparable_fields.

(** Modelled from the spec: the differ looks at every trip id present in
    both datasets; an id present on one side only is no conflict. *)
Definition detectConflicts (L R : Dataset) : list ConflictItem :=
  mjoin ((λ kv, match trips R !! kv.1 with
                | Some r => diff_trip kv.1 kv.2 r
                | None => []
                end) <$> map_to_list (trips L)).

End Differ.

(** ** The merge of two datasets *)

Module Merge.

(** Modelled from the spec: the merge of the backup service, which is not
    among the sources, is taken from the description of the Merged Dataset
    and of the Merge Engine: the union of the non-conflicting trips of both
    sides (the local-only and the remote-only trips among them) plus, for
    every conflicting trip id, the remote copy when the resolution map says
    ["remote"] and the local copy otherwise. A trip held by both sides
    without a conflict is in both halves of the union, which keeps the
    local copy. *)
Definition unchallenged_local (R : gmap string Trip) (kv : string * Trip) : bool :=
  match R !! kv.1 with
  | Some r => negb (Differ.conflicting kv.2 r)
  | None => true
  end.

(** Modelled from the spec: the remote trips that are not in conflict, the
    remote-only ones among them. *)
Definition unchallenged_remote (L : gmap string Trip) (kv : string * Trip) : bool :=
  match L !! kv.1 with
  | Some l => negb (Differ.conflicting l kv.2)
  | None => true
  end.

(** Modelled from the spec: the choice made for a conflicting trip id,
    [resolutionMap[tripId] === "remote" ? remoteTrip : localTrip]. *)
Definition choose (res : ResolutionMap) (id : string) (l r : Trip) : Trip :=
  match res !! id with
  | Some Remote => r
  | _ => l
  end.

(** Modelled from the spec: the chosen copy of every conflicting trip. *)
Definition resolved (L R : gmap string Trip) (res : ResolutionMap)
  : gmap string Trip :=
  map_imap (λ id l, match R !! id with
                    | Some r => if Differ.conflicting l r
                                then Some (choose res id l r) else None
                    | None => None
                    end) L.

(** Modelled from the spec: the output trip set, the three parts united. *)
Definition merge_trips (L R : gmap string Trip) (res : ResolutionMap)
  : gmap string Trip :=
  filter (λ kv, unchallenged_local R kv) L
  ∪ filter (λ kv, unchallenged_remote L kv) R
  ∪ resolved L R res.

(** Modelled from the spec: profile and loose events are replaced wholesale
    by the local copy's. *)
Definition merge (L R : Dataset) (res : ResolutionMap) : Dataset :=
  {| trips := merge_trips (trips L) (trips R) res;
     profile := profile L;
     customEvents := customEvents L |}.

End Merge.

(** ** Effects: component state, the world, exceptions *)

(** What a handler does to the outside, in the order it does it. *)
Inductive Event : Type :=
  | EFetch (sid : string) (ok : bool)
  | EWrite (sid : string) (d : Dataset) (ok : bool)
  | EAppendVersion (v : TripVersion) (ok : bool)
  | EListVersions (tid : string) (ok : bool)
  | EImport (d : Dataset)
  | EUpdateTrip (t : Trip)
  | EAlert (msg : string)
  | EConfirm (msg : string) (answer : bool)
  | EConsoleError (msg : string)
  | EStorageSet (key value : string)
  | ETimeout (ms : Z).

(** Everything outside the component: the browser's [localStorage], the
    Remote Backup Store (one blob per sync identifier and the append-only
    list of trip versions), the outcome of the remote calls to come
    ([true]: answered, [false]: failed; an exhausted list answers), the
    user's answer to [window.confirm], the clock and the trace. *)
Record World : Type := mkWorld {
  localStorage : gmap string string;
  blobs : gmap string Dataset;
  history : list TripVersion;
  net : list bool;
  user : string → bool;
  clock : Z;
  log : list Event
}.

Definition with_localStorage (f : gmap string string → gmap string string)
  (w : World) : World :=
  mkWorld (f (localStorage w)) (blobs w) (history w) (net w) (user w) (clock w) (log w).
Definition with_blobs (f : gmap string Dataset → gmap string Dataset)
  (w : World) : World :=
  mkWorld (localStorage w) (f (blobs w)) (history w) (net w) (user w) (clock w) (log w).
Definition with_history (f : list TripVersion → list TripVersion)
  (w : World) : World :=
  mkWorld (localStorage w) (blobs w) (f (history w)) (net w) (user w) (clock w) (log w).
Definition with_net (f : list bool → list bool) (w : World) : World :=
  mkWorld (localStorage w) (blobs w) (history w) (f (net w)) (user w) (clock w) (log w).
Definition with_log (f : list Event → list Event) (w : World) : World :=
  mkWorld (localStorage w) (blobs w) (history w) (net w) (user w) (clock w) (f (log w)).

Inductive Outcome (A : Type) : Type :=
  | Returned (a : A)
  | Thrown (msg : string).
Arguments Returned {A} a.
Arguments Thrown {A} msg.

(** A computation over the state [UI] of a component and the world, which
    returns or throws. *)
Definition M (UI A : Type) : Type := UI * World → Outcome A * (UI * World).

Module Eff.
Section Eff.
Context {UI : Type}.

Definition ret {A} (a : A) : M UI A := λ s, (Returned a, s).

Definition bind {A B} (m : M UI A) (k : A → M UI B) : M UI B :=
  λ s, match m s with
       | (Returned a, s') => k a s'
       | (Thrown e, s') => (Thrown e, s')
       end.

Definition throw {A} (e : string) : M UI A := λ s, (Thrown e, s).

(** [try { body } catch (e) { handler e }] *)
Definition try_catch {A} (body : M UI A) (handler : string → M UI A) : M UI A :=
  λ s, match body s with
       | (Returned a, s') => (Returned a, s')
       | (Thrown e, s') => handler e s'
       end.

(** [try { body } finally { fin }]: [fin] runs either way and the outcome
    of [body] stands unless [fin] throws. *)
Definition try_finally {A} (body : M UI A) (fin : M UI unit) : M UI A :=
  λ s, match body s with
       | (r, s') =>
           match fin s' with
           | (Returned _, s'') => (r, s'')
           | (Thrown e, s'') => (Thrown e, s'')
           end
       end.

Definition get_ui : M UI UI := λ s, (Returned s.1, s).
Definition set_ui (f : UI → UI) : M UI unit := λ s, (Returned (), (f s.1, s.2)).
Definition get_world : M UI World := λ s, (Returned s.2, s).
Definition set_world (f : World → World) : M UI unit :=
  λ s, (Returned (), (s.1, f s.2)).

Definition emit (e : Event) : M UI unit := set_world (with_log (λ l, (l ++ [e])%list)).

(** The outcome of the next remote call. *)
Definition remote_call : M UI bool :=
  λ s, (Returned (default true (head (net s.2))), (s.1, with_net tail s.2)).
End Eff.
End Eff.

Import Eff.

#[global] Instance M_ret {UI} : MRet (M UI) := @ret UI.
#[global] Instance M_bind {UI} : MBind (M UI) := λ A B k m, bind m k.

Section Browser.
Context {UI : Type}.

Definition alert (msg : string) : M UI unit := emit (EAlert msg).

Definition console_error (msg : string) : M UI unit := emit (EConsoleError msg).

Definition confirm (msg : string) : M UI bool :=
  w ← get_world;
  let answer := user w msg in
  emit (EConfirm msg answer);;
  mret answer.

Definition localStorage_setItem (key value : string) : M UI unit :=
  set_world (with_localStorage (λ m, <[key := value]> m));;
  emit (EStorageSet key value).

Definition setTimeout (ms : Z) : M UI unit := emit (ETimeout ms).
End Browser.

(** ** The backup service *)

Module SupabaseService.
Section Service.
Context {UI : Type}.

(** Modelled from the spec: [checkForConflicts] fetches the remote
    dataset (and fails with [RemoteUnavailable] when it cannot), runs the
    differ and passes the fetched copy through; nothing is written. *)
Definition checkForConflicts (sid : string) (fullData : Dataset)
  : M UI (list ConflictItem * option Dataset) :=
  ok ← remote_call;
  emit (EFetch sid ok);;
  if ok : bool then
    w ← get_world;
    let remoteData := blobs w !! sid in
    mret (Differ.detectConflicts fullData (default empty_dataset remoteData), remoteData)
  else throw "RemoteUnavailable".

(** Modelled from the spec: [saveGlobalBackup] merges, writes the merged
    dataset under the sync identifier and returns that same value; a
    failed write fails the whole call. A remote side that was not found
    merges as the empty dataset. *)
Definition saveGlobalBackup (sid : string) (fullData : Dataset)
    (remoteData : option Dataset) (resolutions : ResolutionMap) : M UI Dataset :=
  let mergedData :=
    Merge.merge fullData (default empty_dataset remoteData) resolutions in
  ok ← remote_call;
  emit (EWrite sid mergedData ok);;
  if ok : bool then
    set_world (with_blobs (λ b, <[sid := mergedData]> b));;
    mret mergedData
  else throw "RemoteUnavailable".

(** Modelled from the spec: [loadGlobalBackup] is the adapter's
    [fetch(syncId) -> Dataset | NotFound]. *)
Definition loadGlobalBackup (sid : string) : M UI (option Dataset) :=
  ok ← remote_call;
  emit (EFetch sid ok);;
  if ok : bool then
    w ← get_world;
    mret (blobs w !! sid)
  else throw "RemoteUnavailable".

(** Modelled from the spec: [saveTripVersion] appends a new trip version
    with the current timestamp, the given note and a frozen copy of the
    trip to the append-only list; the store numbers the versions. *)
Definition saveTripVersion (trip : Trip) (note : string) : M UI unit :=
  w ← get_world;
  let v := mkVersion (Z.of_nat (length (history w))) (prop trip "id")
                     (clock w) note trip in
  ok ← remote_call;
  emit (EAppendVersion v ok);;
  if ok : bool then set_world (with_history (λ h, (h ++ [v])%list))
  else throw "RemoteUnavailable".

(** Modelled from the spec: [getTripVersions] lists the versions of one
    trip id, newest first. *)
Definition getTripVersions (tid : string) : M UI (list TripVersion) :=
  ok ← remote_call;
  emit (EListVersions tid ok);;
  if ok : bool then
    w ← get_world;
    mret (reverse (filter (λ v, v_tripId v = VStr tid) (history w)))
  else throw "RemoteUnavailable".
End Service.
End SupabaseService.

(** ** The Settings component: cloud sync and the sync identifier *)

Module Settings.

Inductive SyncStatus : Type := Idle | Success | Error | Merged.

(** The [useState] cells of the component that the sync handlers use. *)
Record State : Type := mkState {
  syncId : string;
  isSyncing : bool;
  syncStatus : SyncStatus;
  isEditingId : bool;
  tempId : string;
  conflicts : list ConflictItem;
  remoteDataCache : option Dataset;
  resolutionMap : ResolutionMap;
  showConflictModal : bool
}.

Definition setSyncId (v : string) (s : State) : State :=
  mkState v (isSyncing s) (syncStatus s) (isEditingId s) (tempId s)
          (conflicts s) (remoteDataCache s) (resolutionMap s) (showConflictModal s).
Definition setIsSyncing (v : bool) (s : State) : State :=
  mkState (syncId s) v (syncStatus s) (isEditingId s) (tempId s)
          (conflicts s) (remoteDataCache s) (resolutionMap s) (showConflictModal s).
Definition setSyncStatus (v : SyncStatus) (s : State) : State :=
  mkState (syncId s) (isSyncing s) v (isEditingId s) (tempId s)
          (conflicts s) (remoteDataCache s) (resolutionMap s) (showConflictModal s).
Definition setIsEditingId (v : bool) (s : State) : State :=
  mkState (syncId s) (isSyncing s) (syncStatus s) v (tempId s)
          (conflicts s) (remoteDataCache s) (resolutionMap s) (showConflictModal s).
Definition setTempId (v : string) (s : State) : State :=
  mkState (syncId s) (isSyncing s) (syncStatus s) (isEditingId s) v
          (conflicts s) (remoteDataCache s) (resolutionMap s) (showConflictModal s).
Definition setConflicts (v : list ConflictItem) (s : State) : State :=
  mkState (syncId s) (isSyncing s) (syncStatus s) (isEditingId s) (tempId s)
          v (remoteDataCache s) (resolutionMap s) (showConflictModal s).
Definition setRemoteDataCache (v : option Dataset) (s : State) : State :=
  mkState (syncId s) (isSyncing s) (syncStatus s) (isEditingId s) (tempId s)
          (conflicts s) v (resolutionMap s) (showConflictModal s).
Definition setResolutionMap (v : ResolutionMap) (s : State) : State :=
  mkState (syncId s) (isSyncing s) (syncStatus s) (isEditingId s) (tempId s)
          (conflicts s) (remoteDataCache s) v (showConflictModal s).
Definition setShowConflictModal (v : bool) (s : State) : State :=
  mkState (syncId s) (isSyncing s) (syncStatus s) (isEditingId s) (tempId s)
          (conflicts s) (remoteDataCache s) (resolutionMap s) v.

Definition SYNC_ID_KEY : string := "wanderlust_sync_id".

(** The state at mount: [localStorage.getItem('wanderlust_sync_id') || '']
    for the identifier, the initial values of the other cells. *)
Definition initial (w : World) : State :=
  mkState (default "" (localStorage w !! SYNC_ID_KEY)) false Idle false ""
          [] None ∅ false.

(** The effect on [syncId]. [random36] is the string
    [Math.random().toString(36)]. *)
Definition ensureSyncId (random36 : string) : M State unit :=
  snap ← get_ui;
  if String.eqb (syncId snap) "" then
    let newId := toUpperCase (substring 2 10 random36) in
    localStorage_setItem SYNC_ID_KEY newId;;
    set_ui (setSyncId newId)
  else mret ().

(** The assignment [o[k] = v] on a plain object, for a string [v]: it
    makes or overwrites an own property, except for the key ["__proto__"],
    which is the accessor of [Object.prototype]: its setter ignores a value
    that is no object and no own property is made. *)
Definition assign (k : string) (v : Side) (o : ResolutionMap) : ResolutionMap :=
  if String.eqb k "__proto__" then o else <[k := v]> o.

(** [foundConflicts.forEach(c => initialMap[c.tripId] = 'local')] *)
Definition initialMap (foundConflicts : list ConflictItem) : ResolutionMap :=
  foldl (λ m c, assign (tripId c) Local m) ∅ foundConflicts.

(** A handler reads the cells and props of the render it was created in:
    [snap] is that render's state and [fullData] its prop. *)
Definition performSync (snap : State) (fullData : Dataset)
    (remoteData : option Dataset) (resolutions : ResolutionMap) : M State unit :=
  try_finally
    (try_catch
       (mergedData ← SupabaseService.saveGlobalBackup
                       (syncId snap) fullData remoteData resolutions;
        emit (EImport mergedData);;
        set_ui (setSyncStatus Success);;
        alert "Sync successful! Changes have been merged.";;
        setTimeout 3000;;
        set_ui (setShowConflictModal false);;
        set_ui (setConflicts []);;
        set_ui (setRemoteDataCache None))
       (λ e,
        console_error e;;
        set_ui (setSyncStatus Error);;
        alert ("Sync failed during save: " +:+ e)))
    (set_ui (setIsSyncing false)).

Definition handleCloudSync (fullData : Dataset) : M State unit :=
  snap ← get_ui;
  set_ui (setIsSyncing true);;
  set_ui (setSyncStatus Idle);;
  try_catch
    (found ← SupabaseService.checkForConflicts (syncId snap) fullData;
     let foundConflicts := found.1 in
     let remoteData := found.2 in
     if (0 <? length foundConflicts)%nat then
       set_ui (setConflicts foundConflicts);;
       set_ui (setRemoteDataCache remoteData);;
       set_ui (setResolutionMap (initialMap foundConflicts));;
       set_ui (setShowConflictModal true);;
       set_ui (setIsSyncing false)
     else performSync snap fullData remoteData ∅)
    (λ e,
     console_error e;;
     set_ui (setSyncStatus Error);;
     alert ("Sync failed: " +:+ e);;
     set_ui (setIsSyncing false)).

(** [setResolutionMap(prev => ({ ...prev, [tripId]: value }))]: a computed
    key of an object literal makes an own property, whatever the key. *)
Definition handleResolutionChange (tid : string) (value : Side) : M State unit :=
  set_ui (λ prev, setResolutionMap (<[tid := value]> (resolutionMap prev)) prev).

Definition handleConfirmResolution (fullData : Dataset) : M State unit :=
  snap ← get_ui;
  performSync snap fullData (remoteDataCache snap) (resolutionMap snap).

(** The cancel button of the conflict dialog (and a click on its backdrop):
    [() => setShowConflictModal(false)]. *)
Definition handleCancelSync : M State unit :=
  set_ui (setShowConflictModal false).

(** The choice the dialog shows for a trip, [resolutionMap[tripId] || 'local']:
    the entry of the map, ['local'] when the read gives [undefined], and no
    side at all when the map has no entry and the read finds a property of
    [Object.prototype] instead. *)
Definition currentChoice (s : State) (tid : string) : option Side :=
  match resolutionMap s !! tid with
  | Some side => Some side
  | None => if inherited tid then None else Some Local
  end.

Definition startEditingId : M State unit :=
  snap ← get_ui;
  set_ui (setTempId (syncId snap));;
  set_ui (setIsEditingId true).

Definition MSG_TOO_SHORT : string := "ID must be at least 4 characters long.".
Definition MSG_BAD_CHARS : string :=
  "ID can only contain uppercase letters, numbers, and hyphens.".

Definition switchMsg (newId : string) : string :=
  "Switch Sync ID to " +:+ dq +:+ newId +:+ dq +:+ "?".

Definition inUseMsg (newId : string) : string :=
  "⚠️ WARNING: ID ALREADY IN USE" +:+ nl +:+ nl +:+
  "The ID " +:+ dq +:+ newId +:+ dq +:+
  " already has cloud data associated with it." +:+ nl +:+ nl +:+
  "If you switch to this ID and click 'Backup Now', you will OVERWRITE the existing data." +:+
  nl +:+ nl +:+ "Only proceed if this is YOUR ID.".

Definition availableMsg (newId : string) : string :=
  switchMsg newId +:+ nl +:+ nl +:+ "This ID appears to be available.".

(** The handler from its second line on: what it does with the value
    [newId] of [tempId.trim().toUpperCase()]. *)
Definition saveEditedIdOn (newId : string) : M State unit :=
  snap ← get_ui;
  if String.eqb newId "" || String.eqb newId (syncId snap) then
    set_ui (setIsEditingId false)
  else if (utf16_length newId <? 4)%nat then
    alert MSG_TOO_SHORT
  else if negb (test_id_regex newId) then
    alert MSG_BAD_CHARS
  else
    set_ui (setIsSyncing true);;
    try_finally
      (try_catch
         (existing ← SupabaseService.loadGlobalBackup newId;
          let confirmMsg :=
            match existing with
            | Some _ => inUseMsg newId
            | None => availableMsg newId
            end in
          yes ← confirm confirmMsg;
          if yes : bool then
            set_ui (setSyncId newId);;
            localStorage_setItem SYNC_ID_KEY newId;;
            set_ui (setIsEditingId false)
          else mret ())
         (λ e,
          console_error e;;
          alert "Could not verify ID availability."))
      (set_ui (setIsSyncing false)).

(** The handler: its first line computes the identifier from the text of
    the editor, with [trim] and [toUpperCase] as they act on ASCII text. *)
Definition saveEditedId : M State unit :=
  snap ← get_ui;
  saveEditedIdOn (toUpperCase (trim (tempId snap))).

End Settings.

(** ** The Planner component: version history *)

Module Planner.

(** The [useState] cells of the component that the version handlers use;
    [editingTripId] is [string | null] and [formState] the object of the six
    form fields. *)
Record State : Type := mkState {
  editingTripId : option string;
  formState : gmap string JsVal;
  showVersionPanel : bool;
  versions : list TripVersion;
  versionNote : string;
  isLoadingVersions : bool;
  toastMessage : string;
  showToast : bool
}.

Definition setFormState (v : gmap string JsVal) (s : State) : State :=
  mkState (editingTripId s) v (showVersionPanel s) (versions s) (versionNote s)
          (isLoadingVersions s) (toastMessage s) (showToast s).
Definition setShowVersionPanel (v : bool) (s : State) : State :=
  mkState (editingTripId s) (formState s) v (versions s) (versionNote s)
          (isLoadingVersions s) (toastMessage s) (showToast s).
Definition setVersions (v : list TripVersion) (s : State) : State :=
  mkState (editingTripId s) (formState s) (showVersionPanel s) v (versionNote s)
          (isLoadingVersions s) (toastMessage s) (showToast s).
Definition setVersionNote (v : string) (s : State) : State :=
  mkState (editingTripId s) (formState s) (showVersionPanel s) (versions s) v
          (isLoadingVersions s) (toastMessage s) (showToast s).
Definition setIsLoadingVersions (v : bool) (s : State) : State :=
  mkState (editingTripId s) (formState s) (showVersionPanel s) (versions s)
          (versionNote s) v (toastMessage s) (showToast s).
Definition setToastMessage (v : string) (s : State) : State :=
  mkState (editingTripId s) (formState s) (showVersionPanel s) (versions s)
          (versionNote s) (isLoadingVersions s) v (showToast s).
Definition setShowToast (v : bool) (s : State) : State :=
  mkState (editingTripId s) (formState s) (showVersionPanel s) (versions s)
          (versionNote s) (isLoadingVersions s) (toastMessage s) v.

(** The trip being edited, when [editingTripId] is truthy: neither [null]
    nor the empty string. *)
Definition editing (s : State) : option string :=
  match editingTripId s with
  | Some tid => if String.eqb tid "" then None else Some tid
  | None => None
  end.

Definition PLACEHOLDER_NOTE : string := "Auto-save".

(** [{ ...version.data, id: targetId }] *)
Definition restore (version : TripVersion) (targetId : string) : Trip :=
  <["id" := VStr targetId]> (v_data version).

Definition formOf (t : Trip) : gmap string JsVal :=
  {[ "title" := prop t "title";
     "location" := prop t "location";
     "startDate" := prop t "startDate";
     "endDate" := prop t "endDate";
     "description" := prop t "description";
     "budget" := or_else (prop t "budget") (VNum 0) ]}.

Definition crossTripMsg (version : TripVersion) : string :=
  "⚠️ This version is from a different Trip ID." +:+ nl +:+
  "Restoring will OVERWRITE the current trip content with data from " +:+
  dq +:+ toStr (prop (v_data version) "title") +:+ dq +:+ "." +:+ nl +:+ "Continue?".

Section Handlers.
(** [new Date(t).toLocaleString()], which depends on the browser's locale. *)
Variable toLocaleString : Z → string.

Definition sameTripMsg (version : TripVersion) : string :=
  "Restore version from " +:+ toLocaleString (v_timestamp version) +:+
  "? Current unsaved changes will be lost.".

Definition loadVersions (snap : State) : M State unit :=
  match editing snap with
  | None => mret ()
  | Some tid =>
      set_ui (setIsLoadingVersions true);;
      try_finally
        (try_catch
           (v ← SupabaseService.getTripVersions tid;
            set_ui (setVersions v))
           (λ e,
            console_error e;;
            alert "Failed to load versions. Check connection."))
        (set_ui (setIsLoadingVersions false))
  end.

(** [trips] is the prop of the render the handler was created in. *)
Definition handleSaveVersion (trips : list Trip) : M State unit :=
  snap ← get_ui;
  match editing snap with
  | None => mret ()
  | Some tid =>
      match List.find (λ t, bool_decide (prop t "id" = VStr tid)) trips with
      | None => mret ()
      | Some currentTrip =>
          let tripToSave : Trip := formState snap ∪ currentTrip in
          set_ui (setIsLoadingVersions true);;
          try_finally
            (try_catch
               (SupabaseService.saveTripVersion tripToSave
                  (str_or (versionNote snap) PLACEHOLDER_NOTE);;
                set_ui (setVersionNote "");;
                set_ui (setToastMessage "Version saved to Cloud!");;
                set_ui (setShowToast true);;
                setTimeout 3000;;
                loadVersions snap)
               (λ e, alert "Failed to save version."))
            (set_ui (setIsLoadingVersions false))
      end
  end.

Definition handleRestoreVersion (version : TripVersion) : M State unit :=
  snap ← get_ui;
  match editing snap with
  | None => mret ()
  | Some tid =>
      let isDifferentId := bool_decide (prop (v_data version) "id" ≠ VStr tid) in
      let msg := if isDifferentId then crossTripMsg version
                 else sameTripMsg version in
      yes ← confirm msg;
      if yes : bool then
        let restoredTrip := restore version tid in
        emit (EUpdateTrip restoredTrip);;
        set_ui (setFormState (formOf restoredTrip));;
        set_ui (setToastMessage "Version restored successfully.");;
        set_ui (setShowToast true);;
        setTimeout 3000;;
        set_ui (setShowVersionPanel false)
      else mret ()
  end.
End Handlers.

End Planner.

(** ** Running a handler *)

Definition run {UI A} (m : M UI A) (s : UI) (w : World) : Outcome A * (UI * World) :=
  m (s, w).
Definition ui_after {UI A} (m : M UI A) (s : UI) (w : World) : UI := (m (s, w)).2.1.
Definition world_after {UI A} (m : M UI A) (s : UI) (w : World) : World := (m (s, w)).2.2.

(** ** The outcomes of the handlers *)

(** The state and world a sync ends in when the write of [m] is answered. *)
Definition sync_done (snap s : Settings.State) (w : World) (m : Dataset)
  : Settings.State * World :=
  (Settings.setIsSyncing false
     (Settings.setRemoteDataCache None
        (Settings.setConflicts []
           (Settings.setShowConflictModal false
              (Settings.setSyncStatus Settings.Success s)))),
   mkWorld (localStorage w) (<[Settings.syncId snap := m]> (blobs w)) (history w)
     (tail (net w)) (user w) (clock w)
     (log w ++ [EWrite (Settings.syncId snap) m true; EImport m;
                EAlert "Sync successful! Changes have been merged.";
                ETimeout 3000])%list).

(** The state and world a sync ends in when the write of [m] fails. *)
Definition sync_failed (snap s : Settings.State) (w : World) (m : Dataset)
  : Settings.State * World :=
  (Settings.setIsSyncing false (Settings.setSyncStatus Settings.Error s),
   mkWorld (localStorage w) (blobs w) (history w)
     (tail (net w)) (user w) (clock w)
     (log w ++ [EWrite (Settings.syncId snap) m false;
                EConsoleError "RemoteUnavailable";
                EAlert "Sync failed during save: RemoteUnavailable"])%list).

(** The world once the differ has fetched the remote dataset. *)
Definition fetched (s : Settings.State) (w : World) : World :=
  mkWorld (localStorage w) (blobs w) (history w) (tail (net w)) (user w) (clock w)
    (log w ++ [EFetch (Settings.syncId s) true])%list.

(** The state and world when the differ reports the conflicts [found]. *)
Definition conflicts_found (s : Settings.State) (w : World)
    (found : list ConflictItem) : Settings.State * World :=
  (Settings.setIsSyncing false
     (Settings.setShowConflictModal true
        (Settings.setResolutionMap (Settings.initialMap found)
           (Settings.setRemoteDataCache (blobs w !! Settings.syncId s)
              (Settings.setConflicts found
                 (Settings.setSyncStatus Settings.Idle
                    (Settings.setIsSyncing true s)))))),
   fetched s w).

(** The state and world when the fetch of the differ fails. *)
Definition fetch_failed (s : Settings.State) (w : World) : Settings.State * World :=
  (Settings.setIsSyncing false
     (Settings.setSyncStatus Settings.Error
        (Settings.setSyncStatus Settings.Idle (Settings.setIsSyncing true s))),
   mkWorld (localStorage w) (blobs w) (history w) (tail (net w)) (user w) (clock w)
     (log w ++ [EFetch (Settings.syncId s) false;
                EConsoleError "RemoteUnavailable";
                EAlert "Sync failed: RemoteUnavailable"])%list).

(** The question [handleRestoreVersion] asks before it restores into [tid]. *)
Definition restore_msg (toLocaleString : Z → string) (version : TripVersion)
    (tid : string) : string :=
  if bool_decide (prop (v_data version) "id" ≠ VStr tid)
  then Planner.crossTripMsg version
  else Planner.sameTripMsg toLocaleString version.

(** The Planner state after a restore of the trip [t]. *)
Definition restored (s : Planner.State) (t : Trip) : Planner.State :=
  Planner.setShowVersionPanel false
    (Planner.setShowToast true
       (Planner.setToastMessage "Version restored successfully."
          (Planner.setFormState (Planner.formOf t) s))).

(** Base-36 digits, as [toString(36)] prints them and in upper case. *)
Definition base36_lower (c : ascii) : bool := is_digit c || is_lower c.
Definition base36_upper (c : ascii) : bool := is_digit c || is_upper c.

(** The strings [Math.random().toString(36)] returns: ["0"] for the number
    0 and, for any other number of [0, 1), ["0."] followed by its base-36
    digits, one at least. *)
Definition random36_digits (digits : string) : string := "0." +:+ digits.

(** ** Sample data *)

Definition tripA100 : Trip :=
  {[ "id" := VStr "A"; "title" := VStr "Alps"; "budget" := VNum 100 ]}.
Definition tripA200 : Trip :=
  {[ "id" := VStr "A"; "title" := VStr "Alps"; "budget" := VNum 200 ]}.
Definition tripB50 : Trip :=
  {[ "id" := VStr "B"; "title" := VStr "Bali"; "budget" := VNum 50 ]}.

Definition onlyA : Dataset := mkDataset {[ "A" := tripA100 ]} ∅ ∅.
Definition onlyB : Dataset := mkDataset {[ "B" := tripB50 ]} ∅ ∅.
Definition bothAB : Dataset := mkDataset {[ "A" := tripA200; "B" := tripB50 ]} ∅ ∅.

(** A trip whose id is ["__proto__"], as a backup file or another device
    can supply it, in a local and in a remote copy. *)
Definition tripProto100 : Trip :=
  {[ "id" := VStr "__proto__"; "title" := VStr "Polar"; "budget" := VNum 100 ]}.
Definition tripProto200 : Trip :=
  {[ "id" := VStr "__proto__"; "title" := VStr "Polar"; "budget" := VNum 200 ]}.
Definition onlyProto : Dataset := mkDataset {[ "__proto__" := tripProto100 ]} ∅ ∅.

(** A store that holds [bothAB] under ["SYNC"], answers every call, and a
    user who accepts every question. *)
Definition world0 : World :=
  mkWorld ∅ {[ "SYNC" := bothAB ]} [] [] (λ _, true) 0 [].
(** The same store when the next remote call fails. *)
Definition world_down : World :=
  mkWorld ∅ {[ "SYNC" := bothAB ]} [] [false] (λ _, true) 0 [].
(** The same store with a user who declines every question. *)
Definition world_refusing : World :=
  mkWorld ∅ {[ "SYNC" := bothAB ]} [] [] (λ _, false) 0 [].
(** A store that holds the remote copy of the ["__proto__"] trip. *)
Definition world_proto : World :=
  mkWorld ∅ {[ "SYNC" := mkDataset {[ "__proto__" := tripProto200 ]} ∅ ∅ ]} [] []
          (λ _, true) 0 [].
(** A first visit: nothing stored anywhere. *)
Definition world_fresh : World := mkWorld ∅ ∅ [] [] (λ _, true) 0 [].

Definition settings0 : Settings.State :=
  Settings.mkState "SYNC" false Settings.Idle false "" [] None ∅ false.
Definition settingsAB : Settings.State :=
  Settings.mkState "SYNC" false Settings.Idle true "AB" [] None ∅ false.
Definition settingsTaken : Settings.State :=
  Settings.mkState "MINE" false Settings.Idle true " sync " [] None ∅ false.

Definition versionOfB : TripVersion :=
  mkVersion 0 (VStr "B") 1700000000000 "before flight change" tripB50.
Definition plannerA : Planner.State :=
  Planner.mkState (Some "A") ∅ true [versionOfB] "" false "" false.
Definition plannerNoNote : Planner.State :=
  Planner.mkState (Some "A") {[ "title" := VStr "Alps, again" ]} true [] ""
                  false "" false.

(** ** The Settings component: restoring from an identifier *)

Module Restore.

(** The cells [handleCloudRestore] uses: those of the sync handlers and the
    text typed in the restore field. *)
Record Cells : Type := mkCells {
  settings : Settings.State;
  inputSyncId : string
}.

Definition on_settings (f : Settings.State → Settings.State) (c : Cells) : Cells :=
  mkCells (f (settings c)) (inputSyncId c).
Definition setInputSyncId (v : string) (c : Cells) : Cells :=
  mkCells (settings c) v.

Definition foundMsg (targetId : string) : string :=
  "Found backup for ID " +:+ dq +:+ targetId +:+ dq +:+ "! " +:+ nl +:+ nl +:+
  "This will overwrite your current local data and link your app to this ID for future backups." +:+
  nl +:+ nl +:+ "Continue?".

Definition restoredMsg (targetId : string) : string :=
  "Restore successful! " +:+ nl +:+ "Your Sync ID is now: " +:+ targetId +:+ ".".

Definition MSG_NOT_FOUND : string := "No backup found for this ID.".
Definition MSG_RESTORE_FAILED : string := "Failed to restore. Please check connection.".

(** [result && result.data]: the service's answer is the stored dataset or
    nothing. *)
Definition handleCloudRestore : M Cells unit :=
  snap ← get_ui;
  if String.eqb (trim (inputSyncId snap)) "" then mret ()
  else
    set_ui (on_settings (Settings.setIsSyncing true));;
    try_finally
      (try_catch
         (let targetId := toUpperCase (trim (inputSyncId snap)) in
          result ← SupabaseService.loadGlobalBackup targetId;
          match result with
          | Some data =>
              yes ← confirm (foundMsg targetId);
              if yes : bool then
                emit (EImport data);;
                set_ui (on_settings (Settings.setSyncId targetId));;
                localStorage_setItem Settings.SYNC_ID_KEY targetId;;
                alert (restoredMsg targetId);;
                set_ui (setInputSyncId "")
              else mret ()
          | None => alert MSG_NOT_FOUND
          end)
         (λ e,
          console_error e;;
          alert MSG_RESTORE_FAILED))
      (set_ui (on_settings (Settings.setIsSyncing false))).

End Restore.

(** The identifier shown by the component is the one the browser stores. *)
Definition persisted (s : Settings.State) (w : World) : Prop :=
  localStorage w !! Settings.SYNC_ID_KEY = Some (Settings.syncId s).

(** ** The sync section as a whole *)

(** A handler of the sync cells run on the cells of the section. *)
Definition lift {A} (m : M Settings.State A) : M Restore.Cells A :=
  λ cw, let r := m (Restore.settings cw.1, cw.2) in
        (r.1, (Restore.mkCells r.2.1 (Restore.inputSyncId cw.1), r.2.2)).

(** What can happen to the cells of the sync section: the clicks and key
    strokes its elements are bound to, the effect on [syncId] and the timer
    a successful sync sets. [fullData] is the prop of the render the click
    happens in. *)
Inductive Action : Type :=
  | ASync (fullData : Dataset)
  | AFlip (tid : string) (value : Side)
  | AConfirm (fullData : Dataset)
  | ACancel
  | AStartEditing
  | ATypeId (text : string)
  | ASaveId
  | ATypeRestore (text : string)
  | ARestore
  | AEffect (random36 : string)
  | AStatusTimer.

(** The choices, the confirmation and the cancel are elements of the
    conflict dialog, which is rendered under [showConflictModal &&]. *)
Definition enabled (c : Restore.Cells) (a : Action) : bool :=
  match a with
  | AFlip _ _ | AConfirm _ | ACancel => Settings.showConflictModal (Restore.settings c)
  | _ => true
  end.

Definition handler (a : Action) : M Restore.Cells unit :=
  match a with
  | ASync fullData => lift (Settings.handleCloudSync fullData)
  | AFlip tid value => lift (Settings.handleResolutionChange tid value)
  | AConfirm fullData => lift (Settings.handleConfirmResolution fullData)
  | ACancel => lift Settings.handleCancelSync
  | AStartEditing => lift Settings.startEditingId
  | ATypeId text => set_ui (Restore.on_settings (Settings.setTempId (toUpperCase text)))
  | ASaveId => lift Settings.saveEditedId
  | ATypeRestore text => set_ui (Restore.setInputSyncId (toUpperCase text))
  | ARestore => Restore.handleCloudRestore
  | AEffect random36 => lift (Settings.ensureSyncId random36)
  | AStatusTimer => set_ui (Restore.on_settings (Settings.setSyncStatus Settings.Idle))
  end.

(** One action, which does nothing when its element is not on the page. *)
Definition step (a : Action) (cw : Restore.Cells * World) : Restore.Cells * World :=
  if enabled cw.1 a then (handler a cw).2 else cw.

(** A sequence of actions, each on what the one before left. *)
Definition steps (l : list Action) (cw : Restore.Cells * World)
  : Restore.Cells * World :=
  foldl (λ cw a, step a cw) cw l.

(** The cells with the collector emptied: no conflict, no cached remote
    dataset, an empty resolution map. *)
Definition forget (s : Settings.State) : Settings.State :=
  Settings.setResolutionMap ∅
    (Settings.setRemoteDataCache None (Settings.setConflicts [] s)).

(** What the page shows of the cells: the conflicts and the resolution map
    are rendered inside the conflict dialog only, the cached remote dataset
    never. *)
Definition view (c : Restore.Cells) : Restore.Cells :=
  if Settings.showConflictModal (Restore.settings c) then c
  else Restore.on_settings forget c.

(** A run of a handler that rejects the identifier: no remote call (the
    outcomes of the calls to come are all still there), the identifier as it
    was in the component and in the browser storage, the store as it was,
    and on the trace at most the alert of a failed check. *)
Definition rejected (h : M Settings.State unit) (s : Settings.State) (w : World)
  : Prop :=
  let s' := ui_after h s w in
  let w' := world_after h s w in
  Settings.syncId s' = Settings.syncId s
  ∧ localStorage w' = localStorage w
  ∧ blobs w' = blobs w
  ∧ net w' = net w
  ∧ (log w' = log w
     ∨ log w' = (log w ++ [EAlert Settings.MSG_TOO_SHORT])%list
     ∨ log w' = (log w ++ [EAlert Settings.MSG_BAD_CHARS])%list).

(** A store that holds a backup under the two-character identifier
    ["AB"], and a user who accepts every question. *)
Definition world_short : World :=
  mkWorld ∅ {[ "AB" := onlyA ]} [] [] (λ _, true) 0 [].

(** A sync, a flip of one trip in the collector and the confirmation. *)
Definition sync_flip_confirm (fullData : Dataset) (tid : string) (value : Side)
  : M Settings.State unit :=
  Settings.handleCloudSync fullData;;
  Settings.handleResolutionChange tid value;;
  Settings.handleConfirmResolution fullData.

(** Opening the identifier editor and saving at once. *)
Definition edit_and_save : M Settings.State unit :=
  Settings.startEditingId;; Settings.saveEditedId.

(** ** The usage counter of the AI service *)

Module GeminiService.

Definition STORAGE_KEY_GEMINI_COUNT : string := "wanderlust_gemini_count".

Definition digit_val (c : ascii) : Z := Z.of_nat (nat_of_ascii c) - 48.

(** The value of the longest prefix of decimal digits, read after [acc]. *)
Fixpoint parse_digits (acc : Z) (s : string) : Z :=
  match s with
  | EmptyString => acc
  | String c s' => if is_digit c then parse_digits (10 * acc + digit_val c) s' else acc
  end.

Definition starts_with_digit (s : string) : bool :=
  match s with
  | EmptyString => false
  | String c _ => is_digit c
  end.

(** [parseInt(s, 10)]: leading white space, an optional sign, then digits;
    [None] is [NaN]. Numbers are the integers. The white space skipped is
    the ASCII one, which is all the texts the counter stores can start
    with. *)
Definition parseInt (s : string) : option Z :=
  match trimStart s with
  | String "-" r => if starts_with_digit r then Some (- parse_digits 0 r) else None
  | String "+" r => if starts_with_digit r then Some (parse_digits 0 r) else None
  | t => if starts_with_digit t then Some (parse_digits 0 t) else None
  end.

(** [n.toString()] *)
Definition num_toString (n : option Z) : string :=
  match n with
  | Some z => pretty z
  | None => "NaN"
  end.

Section Usage.
Context {UI : Type}.

(** [parseInt(localStorage.getItem(KEY) || '0', 10)] *)
Definition getUsageCount : M UI (option Z) :=
  w ← get_world;
  mret (parseInt (str_or (default "" (localStorage w !! STORAGE_KEY_GEMINI_COUNT)) "0")).

Definition incrementUsage : M UI unit :=
  count ← getUsageCount;
  localStorage_setItem STORAGE_KEY_GEMINI_COUNT (num_toString ((λ n, n + 1) <$> count)).
End Usage.

End GeminiService.

(** ** The Planner component: the trip form *)

Module PlannerForm.

Inductive PlannerMode : Type := Manual | Ai.

(** The cells of the form handlers: those of the version handlers and the
    ones that open the form, pick its mode and show the calendar. *)
Record Cells : Type := mkCells {
  planner : Planner.State;
  showForm : bool;
  plannerMode : PlannerMode;
  showCalendar : bool;
  searchQuery : string
}.

Definition on_planner (f : Planner.State → Planner.State) (c : Cells) : Cells :=
  mkCells (f (planner c)) (showForm c) (plannerMode c) (showCalendar c) (searchQuery c).
Definition setShowForm (v : bool) (c : Cells) : Cells :=
  mkCells (planner c) v (plannerMode c) (showCalendar c) (searchQuery c).
Definition setPlannerMode (v : PlannerMode) (c : Cells) : Cells :=
  mkCells (planner c) (showForm c) v (showCalendar c) (searchQuery c).
Definition setShowCalendar (v : bool) (c : Cells) : Cells :=
  mkCells (planner c) (showForm c) (plannerMode c) v (searchQuery c).
Definition setSearchQuery (v : string) (c : Cells) : Cells :=
  mkCells (planner c) (showForm c) (plannerMode c) (showCalendar c) v.

Definition setEditingTripId (v : option string) (s : Planner.State) : Planner.State :=
  Planner.mkState v (Planner.formState s) (Planner.showVersionPanel s)
    (Planner.versions s) (Planner.versionNote s) (Planner.isLoadingVersions s)
    (Planner.toastMessage s) (Planner.showToast s).

(** The form as [useState] and [resetForm] make it. *)
Definition emptyForm : gmap string JsVal :=
  {[ "title" := VStr "";
     "location" := VStr "";
     "startDate" := VStr "";
     "endDate" := VStr "";
     "description" := VStr "";
     "budget" := VNum 1000 ]}.

Definition resetForm : M Cells unit :=
  set_ui (on_planner (Planner.setFormState emptyForm));;
  set_ui (on_planner (setEditingTripId None));;
  set_ui (setPlannerMode Manual).

(** [trip.id], a string by the type of a trip. *)
Definition id_of (t : Trip) : option string :=
  match prop t "id" with
  | VStr s => Some s
  | _ => None
  end.

Definition handleEditClick (trip : Trip) : M Cells unit :=
  set_ui (on_planner (setEditingTripId (id_of trip)));;
  set_ui (on_planner (Planner.setFormState (Planner.formOf trip)));;
  set_ui (setPlannerMode Manual);;
  set_ui (on_planner (Planner.setShowVersionPanel false));;
  set_ui (on_planner (Planner.setVersions []));;
  set_ui (setSearchQuery "");;
  set_ui (setShowForm true).

Definition COVER_IMAGE : string :=
  "https://images.unsplash.com/photo-1501785888041-af3ef285b470?q=80&w=800&auto=format&fit=crop".

(** The object literal of a new trip: [id], the spread of the form, then
    the fixed fields, later keys over earlier ones; [now] is [Date.now()]. *)
Definition newTrip (now : Z) (form : gmap string JsVal) : Trip :=
  <["budget" := prop form "budget"]>
  (<["favoriteDays" := VJson "[]"]>
  (<["itinerary" := VJson "{}"]>
  (<["dayRatings" := VJson "{}"]>
  (<["rating" := VNum 0]>
  (<["comments" := VJson "[]"]>
  (<["photos" := VJson "[]"]>
  (<["coverImage" := VStr COVER_IMAGE]>
  (<["status" := VStr "future"]>
  (form ∪ {[ "id" := VStr (pretty now) ]}))))))))).

Section Submit.
(** The AI generation, which [handleSubmit] starts without awaiting it. *)
Variable handleAiGeneration : M Cells unit.

(** The result is the trip handed to [onAddTrip], if any; an update goes to
    [onUpdateTrip]. A rejection of the generation does not reach the
    caller. *)
Definition handleSubmit (trips : list Trip) : M Cells (option Trip) :=
  snap ← get_ui;
  match plannerMode snap with
  | Ai => try_catch handleAiGeneration (λ _, mret ());; mret None
  | Manual =>
      let form := Planner.formState (planner snap) in
      if negb (truthy (prop form "startDate")) || negb (truthy (prop form "endDate"))
      then mret None
      else
        added ← match Planner.editing (planner snap) with
                | Some tid =>
                    match List.find (λ t, bool_decide (prop t "id" = VStr tid)) trips with
                    | Some existingTrip =>
                        emit (EUpdateTrip (form ∪ existingTrip));; mret None
                    | None => mret None
                    end
                | None =>
                    w ← get_world;
                    mret (Some (newTrip (clock w) form))
                end;
        set_ui (setShowForm false);;
        resetForm;;
        mret added
  end.
End Submit.

(** The fields of a [Date] the calendar reads: [getFullYear()],
    [getMonth()] (from 0) and [getDate()]. *)
Record JsDate : Type := mkDate {
  getFullYear : Z;
  getMonth : Z;
  getDate : Z
}.

Fixpoint zeros (n : nat) : string :=
  match n with
  | O => ""
  | S n' => String "0" (zeros n')
  end.

(** [s.padStart(n, '0')] *)
Definition padStart0 (n : nat) (s : string) : string :=
  zeros (n - String.length s) +:+ s.

Definition toLocalISOString (date : JsDate) : string :=
  pretty (getFullYear date) +:+ "-" +:+
  padStart0 2 (pretty (getMonth date + 1)) +:+ "-" +:+
  padStart0 2 (pretty (getDate date)).

(** [a < v] and [a > v] for a date string [a] and a cell of the form, which
    holds a string by its type (or [undefined], copied from a trip); a date
    string is no number, so a cell that is not text compares false. *)
Definition lt_cell (a : string) (v : JsVal) : bool :=
  match v with
  | VStr b => String.ltb a b
  | _ => false
  end.
Definition gt_cell (a : string) (v : JsVal) : bool :=
  match v with
  | VStr b => String.ltb b a
  | _ => false
  end.

Definition handleDateClick (date : JsDate) : M Cells unit :=
  snap ← get_ui;
  let form := Planner.formState (planner snap) in
  let dateStr := toLocalISOString date in
  let startDate := prop form "startDate" in
  let endDate := prop form "endDate" in
  if negb (truthy startDate) || (truthy startDate && truthy endDate) then
    set_ui (on_planner (Planner.setFormState
      (<["endDate" := VStr ""]> (<["startDate" := VStr dateStr]> form))))
  else
    (if lt_cell dateStr startDate then
       set_ui (on_planner (Planner.setFormState
         (<["endDate" := startDate]> (<["startDate" := VStr dateStr]> form))))
     else
       set_ui (on_planner (Planner.setFormState (<["endDate" := VStr dateStr]> form))));;
    set_ui (setShowCalendar false).

Definition isSelected (form : gmap string JsVal) (dateStr : string) : bool :=
  bool_decide (VStr dateStr = prop form "startDate")
  || bool_decide (VStr dateStr = prop form "endDate").

Definition isInRange (form : gmap string JsVal) (dateStr : string) : bool :=
  if negb (truthy (prop form "startDate")) || negb (truthy (prop form "endDate"))
  then false
  else gt_cell dateStr (prop form "startDate") && lt_cell dateStr (prop form "endDate").

End PlannerForm.

(** ** More outcomes and sample data *)

(** The identifier to save passes every check of [saveEditedId]. *)
Definition valid_new_id (s : Settings.State) : Prop :=
  let newId := toUpperCase (trim (Settings.tempId s)) in
  newId ≠ "" ∧ newId ≠ Settings.syncId s
  ∧ (4 ≤ String.length newId)%nat ∧ test_id_regex newId = true.

(** A collector open on the conflict of trip A, with the remote choice. *)
Definition settings_conflict : Settings.State :=
  Settings.mkState "SYNC" false Settings.Idle false ""
    [mkConflict "A" (VStr "Alps") "budget" (VNum 100) (VNum 200)]
    (Some bothAB) {[ "A" := Remote ]} true.

(** Trip A open in the version panel with a note typed. *)
Definition plannerWithNote : Planner.State :=
  Planner.mkState (Some "A") ∅ true [] "draft" false "" false.

(** The form held by the cells. *)
Definition form_of (c : PlannerForm.Cells) : gmap string JsVal :=
  Planner.formState (PlannerForm.planner c).

(** Both dates of a form are set. *)
Definition has_dates (form : gmap string JsVal) : Prop :=
  truthy (prop form "startDate") = true ∧ truthy (prop form "endDate") = true.

(** The cells once a submitted form is closed. *)
Definition closed_form (c : PlannerForm.Cells) : PlannerForm.Cells :=
  PlannerForm.setPlannerMode PlannerForm.Manual
    (PlannerForm.on_planner (PlannerForm.setEditingTripId None)
       (PlannerForm.on_planner (Planner.setFormState PlannerForm.emptyForm)
          (PlannerForm.setShowForm false c))).

(** Opening a trip in the form and submitting at once. *)
Definition edit_then_submit (ai : M PlannerForm.Cells unit) (trip : Trip)
    (trips : list Trip) : M PlannerForm.Cells (option Trip) :=
  PlannerForm.handleEditClick trip;; PlannerForm.handleSubmit ai trips.

(** A filled form, and the cells of a new trip, of trip A being edited and
    of an untouched form with the calendar open. *)
Definition formFilled : gmap string JsVal :=
  {[ "title" := VStr "Alps, again";
     "location" := VStr "Chamonix";
     "startDate" := VStr "2024-05-03";
     "endDate" := VStr "2024-05-10";
     "description" := VStr "";
     "budget" := VNum 300 ]}.
Definition cellsNew : PlannerForm.Cells :=
  PlannerForm.mkCells
    (Planner.mkState None formFilled false [] "" false "" false)
    true PlannerForm.Manual false "".
Definition cellsEditA : PlannerForm.Cells :=
  PlannerForm.mkCells
    (Planner.mkState (Some "A") formFilled false [] "" false "" false)
    true PlannerForm.Manual false "".
Definition cellsBlank : PlannerForm.Cells :=
  PlannerForm.mkCells
    (Planner.mkState None PlannerForm.emptyForm false [] "" false "" false)
    true PlannerForm.Manual true "".

(** A trip with dates and no budget. *)
Definition tripC : Trip :=
  {[ "id" := VStr "C"; "title" := VStr "Crete"; "location" := VStr "Chania";
     "startDate" := VStr "2024-06-01"; "endDate" := VStr "2024-06-08";
     "itinerary" := VJson "{}" ]}.

(** The count read from what the browser stores under the counter's key. *)
Definition stored_count (v : option string) : option Z :=
  GeminiService.parseInt (str_or (default "" v) "0").

(** A browser in which 41 uses were counted. *)
Definition world_counted : World :=
  mkWorld {[ GeminiService.STORAGE_KEY_GEMINI_COUNT := "41" ]} ∅ [] [] (λ _, true) 0 [].

(** The editor holding a new, valid identifier, and a browser that stores
    the current one. *)
Definition settingsNew : Settings.State :=
  Settings.mkState "SYNC" false Settings.Idle true " new-id " [] None ∅ false.
Definition world_stored : World :=
  mkWorld {[ Settings.SYNC_ID_KEY := "SYNC" ]} {[ "SYNC" := bothAB ]} [] []
          (λ _, true) 0 [].

(** ** Properties of the merge *)

Lemma merge_trips_lookup (L R : gmap string Trip) (res : ResolutionMap) id :
  Merge.merge_trips L R res !! id =
    match L !! id, R !! id with
    | Some l, Some r =>
        Some (if Differ.conflicting l r then Merge.choose res id l r else l)
    | Some l, None => Some l
    | None, Some r => Some r
    | None, None => None
    end.
Proof.
  unfold Merge.merge_trips, Merge.resolved,
    Merge.unchallenged_local, Merge.unchallenged_remote.
  rewrite !lookup_union, !map_lookup_filter, map_lookup_imap.
  destruct (L !! id) as [l|] eqn:HL, (R !! id) as [r|] eqn:HR; simpl;
    rewrite ?HL, ?HR; simpl; try done.
  by destruct (Differ.conflicting l r).
Qed.

Lemma merge_trips_dom (L R : gmap string Trip) (res : ResolutionMap) :
  dom (Merge.merge_trips L R res) = dom L ∪ dom R.
Proof.
  apply set_eq. intros id.
  rewrite elem_of_union, !elem_of_dom, merge_trips_lookup.
  destruct (L !! id) as [l|], (R !! id) as [r|]; split;
    try (intros _; eauto; fail).
  - intros [? ?]; discriminate.
  - intros [[? ?]|[? ?]]; discriminate.
Qed.

Lemma merge_trips_disjoint (L R : gmap string Trip) (res : ResolutionMap) :
  L ##ₘ R → Merge.merge_trips L R res = L ∪ R.
Proof.
  intros Hd. apply map_eq. intros id.
  rewrite merge_trips_lookup, lookup_union.
  destruct (L !! id) as [l|] eqn:HL, (R !! id) as [r|] eqn:HR; try done.
  exfalso. by apply (proj1 (map_disjoint_spec L R) Hd id l r).
Qed.

Lemma conflicting_items (id : string) (l r : Trip) :
  Differ.conflicting l r = true ↔ Differ.diff_trip id l r ≠ [].
Proof.
  unfold Differ.conflicting, Differ.diff_trip.
  induction Differ.comparable_fields as [|f fs IH]; simpl.
  - split; [discriminate | done].
  - destruct (decide (prop l f = prop r f)) as [Heq|Hne].
    + rewrite bool_decide_eq_true_2 by done. simpl. exact IH.
    + rewrite bool_decide_eq_false_2 by done. simpl. split; [discriminate | done].
Qed.

(** The scenario of the spec: the local side holds A with budget 100, the
    remote side A with budget 200 and B; the differ reports the budget of A
    and the resolution ["remote"] for A merges to the remote dataset. *)
Example scenario_differ :
  Differ.detectConflicts onlyA bothAB
  = [mkConflict "A" (VStr "Alps") "budget" (VNum 100) (VNum 200)].
Proof. reflexivity. Qed.

Example scenario_merge :
  trips (Merge.merge onlyA bothAB {[ "A" := Remote ]}) = trips bothAB.
Proof.
  apply map_eq. intros id. simpl. rewrite merge_trips_lookup.
  destruct (decide (id = "A")) as [->|HA]; [reflexivity|].
  rewrite (lookup_singleton_ne "A" id) by done.
  by destruct (_ !! id).
Qed.

(** C1: every trip id of the local or of the remote dataset is an id of the
    merged dataset, whatever the resolution map; and when the two sides
    share no trip id the merge under the empty map holds as many trips as
    the two sides together. *)
Theorem merge_no_data_loss (L R : Dataset) (res : ResolutionMap) :
  (∀ id, id ∈ dom (trips L) ∨ id ∈ dom (trips R) →
         id ∈ dom (trips (Merge.merge L R res)))
  ∧ (trips L ##ₘ trips R →
     size (trips (Merge.merge L R ∅)) = (size (trips L) + size (trips R))%nat).
Proof.
  split.
  - intros id Hid. simpl. rewrite merge_trips_dom. set_solver.
  - intros Hd. simpl. rewrite merge_trips_disjoint by done.
    by apply map_size_disj_union.
Qed.

Lemma merge_no_data_loss_witness :
  "B" ∈ dom (trips (Merge.merge onlyA onlyB ∅))
  ∧ size (trips (Merge.merge onlyA onlyB ∅)) = 2%nat.
Proof.
  destruct (merge_no_data_loss onlyA onlyB ∅) as [Hkeep Hcount]. split.
  - apply Hkeep. right. simpl. rewrite dom_singleton_L. by apply elem_of_singleton.
  - rewrite Hcount; [reflexivity|].
    apply map_disjoint_singleton_l_2, lookup_singleton_ne. discriminate.
Defined.

(** ** Properties of the resolution collector *)

Lemma assign_lookup (k id : string) (v : Side) (m : ResolutionMap) :
  Settings.assign k v m !! id =
    if decide (id = k ∧ k ≠ "__proto__") then Some v else m !! id.
Proof.
  unfold Settings.assign. destruct (String.eqb_spec k "__proto__") as [Hk|Hk].
  - destruct (decide _) as [[_ Hn]|_]; done.
  - destruct (decide _) as [[-> _]|Hn].
    + by rewrite lookup_insert_eq.
    + rewrite lookup_insert_ne; [done|]. intros <-. by apply Hn.
Qed.

Lemma initialMap_acc (cs : list ConflictItem) (m : ResolutionMap) (id : string) :
  foldl (λ m c, Settings.assign (tripId c) Local m) m cs !! id =
    if decide (id ∈ tripId <$> cs ∧ id ≠ "__proto__") then Some Local else m !! id.
Proof.
  revert m. induction cs as [|c cs IH]; intros m.
  - destruct (decide _) as [[H _]|H]; [|done]. by apply elem_of_nil in H.
  - change (foldl (λ m c, Settings.assign (tripId c) Local m)
              (Settings.assign (tripId c) Local m) cs !! id
            = if decide (id ∈ tripId c :: (tripId <$> cs) ∧ id ≠ "__proto__")
              then Some Local else m !! id).
    rewrite IH, assign_lookup.
    destruct (decide (id ∈ tripId <$> cs ∧ id ≠ "__proto__")) as [[Hin Hp]|Hnin],
             (decide (id ∈ tripId c :: (tripId <$> cs) ∧ id ≠ "__proto__"))
               as [[Hin' Hp']|Hnin']; try done.
    + exfalso. apply Hnin'. split; [by right | done].
    + destruct (decide _) as [_|Hn]; [done|].
      apply elem_of_cons in Hin' as [->|?]; [by destruct Hn | by destruct Hnin].
    + destruct (decide _) as [[-> Hp]|_]; [|done].
      exfalso. apply Hnin'. split; [by left | done].
Qed.

Lemma initialMap_lookup (cs : list ConflictItem) (id : string) :
  Settings.initialMap cs !! id =
    if decide (id ∈ tripId <$> cs ∧ id ≠ "__proto__") then Some Local else None.
Proof. unfold Settings.initialMap. by rewrite initialMap_acc, lookup_empty. Qed.

(** ** The sync handlers, case by case *)

Ltac unfold_eff :=
  unfold run, ui_after, world_after,
    SupabaseService.saveGlobalBackup, SupabaseService.checkForConflicts,
    SupabaseService.loadGlobalBackup, SupabaseService.saveTripVersion,
    SupabaseService.getTripVersions,
    alert, console_error, confirm, localStorage_setItem, setTimeout,
    mbind, M_bind, mret, M_ret, bind, ret, throw, try_catch, try_finally,
    get_ui, set_ui, get_world, emit, set_world, remote_call,
    with_log, with_blobs, with_net, with_history, with_localStorage in *;
  simpl in *.

Lemma performSync_cases snap s w fullData remoteData res :
  let m := Merge.merge fullData (default empty_dataset remoteData) res in
  Settings.performSync snap fullData remoteData res (s, w) =
    (Returned (),
     if default true (head (net w)) then sync_done snap s w m
     else sync_failed snap s w m).
Proof.
  unfold Settings.performSync, sync_done, sync_failed. unfold_eff.
  destruct (default true (head (net w))); simpl;
    rewrite <- !app_assoc; reflexivity.
Qed.

Lemma handleCloudSync_cases fullData s w :
  let remoteData := blobs w !! Settings.syncId s in
  let found :=
    Differ.detectConflicts fullData (default empty_dataset remoteData) in
  Settings.handleCloudSync fullData (s, w) =
    if default true (head (net w)) then
      if (0 <? length found)%nat then (Returned (), conflicts_found s w found)
      else Settings.performSync s fullData remoteData ∅
             (Settings.setSyncStatus Settings.Idle (Settings.setIsSyncing true s),
              fetched s w)
    else (Returned (), fetch_failed s w).
Proof.
  unfold Settings.handleCloudSync, conflicts_found, fetch_failed, fetched.
  unfold_eff.
  destruct (default true (head (net w))); simpl.
  - destruct (0 <? length _)%nat; simpl; [reflexivity|].
    rewrite !performSync_cases. simpl. reflexivity.
  - rewrite <- !app_assoc. reflexivity.
Qed.

Lemma handleConfirmResolution_eq fullData s w :
  Settings.handleConfirmResolution fullData (s, w) =
  Settings.performSync s fullData (Settings.remoteDataCache s)
    (Settings.resolutionMap s) (s, w).
Proof. reflexivity. Qed.

(** An import among the events of [sync_done] is the import of the value
    that was written. *)
Lemma import_of_sync_done (l : list Event) (sid : string) (m d : Dataset) :
  EImport d ∈ (l ++ [EWrite sid m true; EImport m;
                     EAlert "Sync successful! Changes have been merged.";
                     ETimeout 3000])%list →
  EImport d ∉ l → d = m.
Proof.
  intros Hin Hnew. apply elem_of_app in Hin as [Hin|Hin]; [done|].
  apply elem_of_cons in Hin as [Hin|Hin]; [discriminate|].
  apply elem_of_cons in Hin as [Hin|Hin]; [congruence|].
  apply elem_of_cons in Hin as [Hin|Hin]; [discriminate|].
  apply elem_of_cons in Hin as [Hin|Hin]; [discriminate|].
  by apply elem_of_nil in Hin.
Qed.

Lemma no_import_of_sync_failed (l : list Event) (sid e1 e2 : string) (m d : Dataset) :
  EImport d ∈ (l ++ [EWrite sid m false; EConsoleError e1; EAlert e2])%list →
  EImport d ∈ l.
Proof.
  intros Hin. apply elem_of_app in Hin as [Hin|Hin]; [done|]. exfalso.
  repeat (apply elem_of_cons in Hin as [Hin|Hin]; [discriminate|]).
  by apply elem_of_nil in Hin.
Qed.

(** When the differ reports conflicts, the collector opens with a
    resolution map that holds ["local"] for the trip id of every conflict
    item but ["__proto__"] and nothing else; and a trip held by both sides
    whose id the resolution map lacks merges to its local copy. *)
Lemma initial_map_defaults_to_local
    (fullData : Dataset) (s : Settings.State) (w : World) :
  let found := Differ.detectConflicts fullData
                 (default empty_dataset (blobs w !! Settings.syncId s)) in
  let s' := ui_after (Settings.handleCloudSync fullData) s w in
  (default true (head (net w)) = true → found ≠ [] →
     Settings.conflicts s' = found
     ∧ Settings.showConflictModal s' = true
     ∧ (∀ c, c ∈ found → tripId c ≠ "__proto__" →
          Settings.resolutionMap s' !! tripId c = Some Local)
     ∧ Settings.resolutionMap s' !! "__proto__" = None
     ∧ (∀ id, id ∉ tripId <$> found → Settings.resolutionMap s' !! id = None))
  ∧ (∀ (R : Dataset) (res : ResolutionMap) id l,
       trips fullData !! id = Some l → is_Some (trips R !! id) →
       res !! id = None →
       trips (Merge.merge fullData R res) !! id = Some l).
Proof.
  intros found s'. split.
  - intros Hok Hne. subst s'. unfold ui_after.
    rewrite handleCloudSync_cases, Hok. fold found.
    destruct found as [|c0 cs] eqn:Hf; [done|]. simpl.
    repeat split.
    + intros c Hc Hp. rewrite initialMap_lookup.
      destruct (decide _) as [|Hn]; [done|]. exfalso. apply Hn.
      split; [by apply list_elem_of_fmap_2 | done].
    + rewrite initialMap_lookup. by destruct (decide _) as [[_ ?]|].
    + intros id Hid. rewrite initialMap_lookup.
      by destruct (decide _) as [[? _]|].
  - intros R res id l Hl [r Hr] Hres. simpl.
    rewrite merge_trips_lookup, Hl, Hr. unfold Merge.choose. rewrite Hres.
    by destruct (Differ.conflicting l r).
Qed.

Lemma initial_map_defaults_to_local_on_A :
  Settings.resolutionMap (ui_after (Settings.handleCloudSync onlyA) settings0 world0)
    !! "A" = Some Local
  ∧ trips (Merge.merge onlyA bothAB ∅) !! "A" = Some tripA100.
Proof.
  destruct (initial_map_defaults_to_local onlyA settings0 world0) as [Hinit Hmerge].
  split.
  - destruct Hinit as (_ & _ & Hloc & _); [reflexivity | by vm_compute |].
    apply (Hloc (mkConflict "A" (VStr "Alps") "budget" (VNum 100) (VNum 200)));
      [vm_compute; by left | discriminate].
  - apply Hmerge; [reflexivity | by eexists | reflexivity].
Qed.

(** C3: a trip whose id is ["__proto__"], held by both sides with different
    budgets, is reported as a conflict and shown in the collector, yet the
    resolution map the collector opens with has no entry for it: the
    assignment [initialMap[c.tripId] = 'local'] made none. The dialog then
    marks neither side for that trip. *)
Theorem resolution_map_lacks_proto_id :
  let s' := ui_after (Settings.handleCloudSync onlyProto) settings0 world_proto in
  Settings.conflicts s'
    = [mkConflict "__proto__" (VStr "Polar") "budget" (VNum 100) (VNum 200)]
  ∧ Settings.showConflictModal s' = true
  ∧ Settings.initialMap (Settings.conflicts s') = ∅
  ∧ Settings.resolutionMap s' !! "__proto__" = None
  ∧ Settings.resolutionMap s' !! "__proto__" ≠ Some Local
  ∧ Settings.currentChoice s' "__proto__" = None.
Proof. cbv zeta. repeat split; try reflexivity. by vm_compute. Qed.

(** C4: when the remote write of a sync fails, the sync reports the failure
    (error status, alert), imports nothing and leaves the store and the
    browser storage as they were; and whenever a sync, started from the
    sync button or from the confirmation of the collector, imports a
    dataset, the write of that same dataset was answered just before. *)
Theorem failed_write_keeps_local_state
    (snap s : Settings.State) (w : World) (fullData : Dataset)
    (remoteData : option Dataset) (res : ResolutionMap) :
  let m := Merge.merge fullData (default empty_dataset remoteData) res in
  let s' := ui_after (Settings.performSync snap fullData remoteData res) s w in
  let w' := world_after (Settings.performSync snap fullData remoteData res) s w in
  let wc := world_after (Settings.handleCloudSync fullData) s w in
  (head (net w) = Some false →
     log w' = (log w ++ [EWrite (Settings.syncId snap) m false;
                         EConsoleError "RemoteUnavailable";
                         EAlert "Sync failed during save: RemoteUnavailable"])%list
     ∧ Settings.syncStatus s' = Settings.Error
     ∧ blobs w' = blobs w
     ∧ localStorage w' = localStorage w)
  ∧ (∀ d, EImport d ∈ log w' → EImport d ∉ log w →
       default true (head (net w)) = true
       ∧ d = m
       ∧ blobs w' !! Settings.syncId snap = Some m
       ∧ ∃ rest, log w' = (log w ++ EWrite (Settings.syncId snap) m true
                                    :: EImport m :: rest)%list)
  ∧ (∀ d, EImport d ∈ log wc → EImport d ∉ log w →
       blobs wc !! Settings.syncId s = Some d
       ∧ ∃ rest, log wc = (log w ++ EFetch (Settings.syncId s) true
                                 :: EWrite (Settings.syncId s) d true
                                 :: EImport d :: rest)%list).
Proof.
  intros m s' w' wc. subst s' w' wc. unfold ui_after, world_after.
  rewrite performSync_cases. fold m. split; [|split].
  - intros Hfail. rewrite Hfail. simpl. done.
  - intros d Hin Hnew.
    destruct (default true (head (net w))); simpl in *.
    + apply import_of_sync_done in Hin as ->; [|done].
      split; [done|]. split; [done|].
      split; [by rewrite lookup_insert_eq | by eexists].
    + by apply no_import_of_sync_failed in Hin.
  - intros d. rewrite handleCloudSync_cases.
    destruct (default true (head (net w))).
    + destruct (0 <? length _)%nat.
      * simpl. intros Hin Hnew. exfalso.
        apply elem_of_app in Hin as [Hin|Hin]; [done|].
        apply elem_of_cons in Hin as [Hin|Hin]; [discriminate|].
        by apply elem_of_nil in Hin.
      * rewrite performSync_cases. simpl.
        destruct (default true (head (tail (net w)))); simpl;
          rewrite <- !app_assoc; simpl; intros Hin Hnew.
        -- apply elem_of_app in Hin as [Hin|Hin]; [done|].
           apply elem_of_cons in Hin as [Hin|Hin]; [discriminate|].
           apply elem_of_cons in Hin as [Hin|Hin]; [discriminate|].
           apply elem_of_cons in Hin as [Hin|Hin].
           ++ injection Hin as ->.
              split; [by rewrite lookup_insert_eq | by eexists].
           ++ exfalso.
              repeat (apply elem_of_cons in Hin as [Hin|Hin]; [discriminate|]).
              by apply elem_of_nil in Hin.
        -- exfalso. apply elem_of_app in Hin as [Hin|Hin]; [done|].
           repeat (apply elem_of_cons in Hin as [Hin|Hin]; [discriminate|]).
           by apply elem_of_nil in Hin.
    + simpl. intros Hin Hnew. exfalso.
      apply elem_of_app in Hin as [Hin|Hin]; [done|].
      repeat (apply elem_of_cons in Hin as [Hin|Hin]; [discriminate|]).
      by apply elem_of_nil in Hin.
Qed.

Lemma failed_write_keeps_local_state_witness :
  log (world_after (Settings.performSync settings0 onlyA (Some onlyB) ∅)
         settings0 world_down)
  = [EWrite "SYNC" (Merge.merge onlyA onlyB ∅) false;
     EConsoleError "RemoteUnavailable";
     EAlert "Sync failed during save: RemoteUnavailable"]
  ∧ blobs (world_after (Settings.performSync settings0 onlyA (Some onlyB) ∅)
             settings0 world_down) = blobs world_down.
Proof.
  destruct (failed_write_keeps_local_state settings0 settings0 world_down
              onlyA (Some onlyB) ∅) as [Hfail _].
  destruct Hfail as (Hlog & _ & Hblobs & _); [reflexivity|].
  split; [exact Hlog | exact Hblobs].
Defined.

(** C5: a sync either writes the merged dataset and imports that very
    value, the import following the write with no read of the store in
    between, or its write fails and nothing is imported. *)
Theorem written_value_is_imported_value
    (snap s : Settings.State) (w : World) (fullData : Dataset)
    (remoteData : option Dataset) (res : ResolutionMap) :
  let m := Merge.merge fullData (default empty_dataset remoteData) res in
  let w' := world_after (Settings.performSync snap fullData remoteData res) s w in
  (log w' = (log w ++ [EWrite (Settings.syncId snap) m true; EImport m;
                       EAlert "Sync successful! Changes have been merged.";
                       ETimeout 3000])%list
   ∧ blobs w' = <[Settings.syncId snap := m]> (blobs w))
  ∨ (log w' = (log w ++ [EWrite (Settings.syncId snap) m false;
                         EConsoleError "RemoteUnavailable";
                         EAlert "Sync failed during save: RemoteUnavailable"])%list
     ∧ blobs w' = blobs w).
Proof.
  intros m w'. subst w'. unfold world_after.
  rewrite performSync_cases. fold m.
  destruct (default true (head (net w))); [left | right]; done.
Qed.

(** ** Cancelling at the collector *)

Lemma step_view (a : Action) (c : Restore.Cells) (w : World) :
  (step a (c, w)).2 = (step a (view c, w)).2
  ∧ view (step a (c, w)).1 = view (step a (view c, w)).1.
Proof.
  destruct c as [[sid syncing st ed tmp cs cache rm modal] input].
  destruct modal; [done|].
  destruct a; unfold step, view, forget, Restore.on_settings; simpl;
    try (split; reflexivity).
  - unfold lift. simpl. rewrite !handleCloudSync_cases. simpl.
    destruct (default true (head (net w))); [|done].
    destruct (0 <? length _)%nat; [done|].
    rewrite !performSync_cases. simpl.
    destruct (default true (head (tail (net w)))); done.
  - unfold lift, Settings.saveEditedId, Settings.saveEditedIdOn. unfold_eff.
    set (newId := toUpperCase (trim tmp)).
    destruct (String.eqb newId "" || String.eqb newId sid); simpl; [done|].
    destruct (utf16_length newId <? 4)%nat; simpl; [done|].
    destruct (test_id_regex newId); simpl; [|done].
    destruct (default true (head (net w))); simpl; [|done].
    destruct (blobs w !! newId); simpl; destruct (user w _); simpl; done.
  - unfold Restore.handleCloudRestore, Restore.on_settings, Restore.setInputSyncId.
    unfold_eff.
    destruct (String.eqb (trim input) ""); simpl; [done|].
    destruct (default true (head (net w))); simpl; [|done].
    destruct (blobs w !! _); simpl; [|done].
    destruct (user w _); simpl; done.
  - unfold lift, Settings.ensureSyncId. unfold_eff.
    destruct (String.eqb sid ""); simpl; done.
Qed.

(** Cells that show the same give, under any sequence of actions, the same
    world, trace included, and cells that show the same. *)
Lemma steps_view (l : list Action) (c1 c2 : Restore.Cells) (w : World) :
  view c1 = view c2 →
  (steps l (c1, w)).2 = (steps l (c2, w)).2
  ∧ view (steps l (c1, w)).1 = view (steps l (c2, w)).1.
Proof.
  revert c1 c2 w. induction l as [|a l IH]; intros c1 c2 w Hv; [done|].
  unfold steps. simpl. fold (steps l (step a (c1, w))) (steps l (step a (c2, w))).
  destruct (step_view a c1 w) as [Hw1 Hv1], (step_view a c2 w) as [Hw2 Hv2].
  rewrite Hv in Hw1, Hv1. rewrite <- Hw2 in Hw1. rewrite <- Hv2 in Hv1.
  destruct (step a (c1, w)) as [d1 w1], (step a (c2, w)) as [d2 w2].
  simpl in *. subst w2. by apply IH.
Qed.

(** C6: a cancel at the collector makes no remote call and changes nothing
    outside the component: the world, its trace included, is as it was. Of
    the cells it changes [showConflictModal] alone, and from then on the
    resolution map and the fetched remote dataset are out of reach: the
    page shows what it shows with an empty collector, and whatever is done
    next, in any order, leaves the same world and shows the same as if the
    conflicts, the cached dataset and the map had been emptied. The next
    sync starts with a fetch under the current identifier. *)
Theorem cancel_discards_the_sync
    (s : Settings.State) (input : string) (w : World) :
  let s' := ui_after Settings.handleCancelSync s w in
  world_after Settings.handleCancelSync s w = w
  ∧ s' = Settings.setShowConflictModal false s
  ∧ view (Restore.mkCells s' input) = Restore.mkCells (forget s') input
  ∧ (∀ l : list Action,
       (steps l (Restore.mkCells s' input, w)).2
         = (steps l (Restore.mkCells (forget s') input, w)).2
       ∧ view (steps l (Restore.mkCells s' input, w)).1
         = view (steps l (Restore.mkCells (forget s') input, w)).1)
  ∧ (∀ fullData, ∃ ok rest,
       log (world_after (Settings.handleCloudSync fullData) s' w)
       = (log w ++ EFetch (Settings.syncId s) ok :: rest)%list).
Proof.
  intros s'. subst s'. repeat split; try reflexivity.
  - apply steps_view. reflexivity.
  - apply steps_view. reflexivity.
  - intros fullData. unfold world_after, ui_after. rewrite handleCloudSync_cases.
    simpl. destruct (default true (head (net w))).
    + destruct (0 <? length _)%nat.
      * by exists true, [].
      * rewrite performSync_cases. simpl.
        destruct (default true (head (tail (net w)))); simpl;
          rewrite <- app_assoc; by eexists true, _.
    + by eexists false, _.
Qed.

(** A sync that finds the conflict on trip A, a cancel and a second sync:
    two fetches, no write and no import, and the collector open again on the
    freshly fetched dataset. *)
Example sync_cancel_sync :
  let r := steps [ASync onlyA; ACancel; ASync onlyA]
             (Restore.mkCells settings0 "", world0) in
  log r.2 = [EFetch "SYNC" true; EFetch "SYNC" true]
  ∧ blobs r.2 = blobs world0
  ∧ Settings.showConflictModal (Restore.settings r.1) = true
  ∧ Settings.remoteDataCache (Restore.settings r.1) = Some bothAB.
Proof. cbv zeta. repeat split; reflexivity. Qed.

(** ** Changing the sync identifier *)

Lemma test_id_regex_all_chars (s : string) :
  all_chars id_char s = false → test_id_regex s = false.
Proof. unfold test_id_regex. intros ->. apply andb_false_r. Qed.

Lemma id_char_units (c : ascii) : id_char c = true → utf16_units c = 1%nat.
Proof. destruct c as [[] [] [] [] [] [] [] []]; by vm_compute. Qed.

(** On a text of the class [[A-Z0-9-]] the bytes are the code units. *)
Lemma utf16_length_id (s : string) :
  all_chars id_char s = true → utf16_length s = String.length s.
Proof.
  induction s as [|c s IH]; simpl; [done|].
  intros [Hc Hs]%andb_true_iff. by rewrite id_char_units, IH.
Qed.

Lemma utf16_length_valid (s : string) :
  test_id_regex s = true → utf16_length s = String.length s.
Proof.
  unfold test_id_regex. intros [_ H]%andb_true_iff. by apply utf16_length_id.
Qed.

(** C7, as stated, fails: the restore from an identifier is a change of the
    Sync Identifier too, and it validates nothing. With ["ab"] in the
    restore field, a backup stored under ["AB"] and a user who accepts,
    [handleCloudRestore] fetches under the two-character identifier and
    switches to it, in the component and in the browser storage. *)
Lemma restore_adopts_a_short_identifier :
  let c := Restore.mkCells settings0 "ab" in
  let c' := ui_after Restore.handleCloudRestore c world_short in
  let w' := world_after Restore.handleCloudRestore c world_short in
  toUpperCase (trim (Restore.inputSyncId c)) = "AB"
  ∧ (utf16_length "AB" < 4)%nat
  ∧ log w' = [EFetch "AB" true; EConfirm (Restore.foundMsg "AB") true;
              EImport onlyA; EStorageSet Settings.SYNC_ID_KEY "AB";
              EAlert (Restore.restoredMsg "AB")]
  ∧ Settings.syncId (Restore.settings c) = "SYNC"
  ∧ Settings.syncId (Restore.settings c') = "AB"
  ∧ localStorage w' !! Settings.SYNC_ID_KEY = Some "AB"
  ∧ ¬ (net w' = net world_short
       ∧ Settings.syncId (Restore.settings c') = Settings.syncId (Restore.settings c)).
Proof.
  cbv zeta. repeat split; try reflexivity.
  - vm_compute. lia.
  - intros [_ Hid]. vm_compute in Hid. discriminate Hid.
Qed.

(** C7, amended: in the identifier editor, an identifier (the text of the
    editor, trimmed and in upper case) that is shorter than 4 characters or
    holds a character that is neither an upper-case letter, a digit nor a
    hyphen is rejected: no remote call is made, the identifier stays as it
    was in the component and in the browser storage, and all that may
    happen is the alert of the check that failed. This holds of the handler
    for whatever identifier its first line computes, and so of the handler
    as a whole on the text where [trim] and [toUpperCase] are the
    methods of the code. *)
Theorem invalid_identifier_rejected
    (newId : string) (s : Settings.State) (w : World) :
  (utf16_length newId < 4)%nat ∨ all_chars id_char newId = false →
  rejected (Settings.saveEditedIdOn newId) s w
  ∧ (ascii_text (Settings.tempId s) →
     toUpperCase (trim (Settings.tempId s)) = newId →
     rejected Settings.saveEditedId s w).
Proof.
  intros Hbad.
  assert (Hon : rejected (Settings.saveEditedIdOn newId) s w).
  { unfold rejected, ui_after, world_after, Settings.saveEditedIdOn. unfold_eff.
    destruct (String.eqb newId "" || String.eqb newId (Settings.syncId s)); simpl.
    { repeat split; try done. by left. }
    destruct (utf16_length newId <? 4)%nat eqn:Hlen; simpl.
    { repeat split; try done. right. by left. }
    destruct (test_id_regex newId) eqn:Hre; simpl.
    - exfalso. destruct Hbad as [Hshort|Hchars].
      + apply Nat.ltb_ge in Hlen. lia.
      + apply test_id_regex_all_chars in Hchars. congruence.
    - repeat split; try done. right. by right. }
  split; [exact Hon|]. intros _ <-. exact Hon.
Qed.

Lemma invalid_identifier_rejected_witness :
  Settings.syncId (ui_after Settings.saveEditedId settingsAB world0) = "SYNC"
  ∧ net (world_after Settings.saveEditedId settingsAB world0) = net world0.
Proof.
  destruct (invalid_identifier_rejected "AB" settingsAB world0) as [_ Hrej].
  - left. vm_compute. lia.
  - destruct Hrej as (Hid & _ & _ & Hnet & _); [reflexivity | reflexivity |].
    split; [exact Hid | exact Hnet].
Defined.

(** C8: when the identifier to save is valid, differs from the current one
    and the store holds data under it, [saveEditedId] fetches, then asks
    the user with the warning that the identifier is already in use and that
    a backup would overwrite the data under it, and switches the identifier
    (state and browser storage) only when the user accepts; the question is
    not the one asked for an identifier that is free. *)
Theorem switch_to_used_id_warns_first
    (s : Settings.State) (w : World) (existing : Dataset) :
  let newId := toUpperCase (trim (Settings.tempId s)) in
  newId ≠ "" → newId ≠ Settings.syncId s →
  (4 ≤ String.length newId)%nat → test_id_regex newId = true →
  default true (head (net w)) = true →
  blobs w !! newId = Some existing →
  let warning :=
    "⚠️ WARNING: ID ALREADY IN USE" +:+ nl +:+ nl +:+
    "The ID " +:+ dq +:+ newId +:+ dq +:+
    " already has cloud data associated with it." +:+ nl +:+ nl +:+
    "If you switch to this ID and click 'Backup Now', you will OVERWRITE the existing data." +:+
    nl +:+ nl +:+ "Only proceed if this is YOUR ID." in
  let answer := user w warning in
  let s' := ui_after Settings.saveEditedId s w in
  let w' := world_after Settings.saveEditedId s w in
  log w' = (log w ++ EFetch newId true
                  :: EConfirm warning answer
                  :: (if answer then [EStorageSet Settings.SYNC_ID_KEY newId] else []))%list
  ∧ warning ≠ Settings.availableMsg newId
  ∧ Settings.syncId s' = (if answer then newId else Settings.syncId s)
  ∧ localStorage w' = (if answer then <[Settings.SYNC_ID_KEY := newId]> (localStorage w)
                       else localStorage w).
Proof.
  intros newId Hne Hdiff Hlen Hre Hok Hex warning answer s' w'. subst s' w'.
  unfold ui_after, world_after, Settings.saveEditedId, Settings.saveEditedIdOn.
  unfold_eff. fold newId.
  apply String.eqb_neq in Hne, Hdiff. rewrite Hne, Hdiff. simpl.
  rewrite (utf16_length_valid _ Hre).
  apply Nat.ltb_ge in Hlen. rewrite Hlen, Hre. simpl.
  rewrite Hok. simpl. rewrite Hex.
  change (Settings.inUseMsg newId) with warning. fold answer.
  split; [|split; [discriminate|]].
  - destruct answer; simpl; rewrite <- !app_assoc; done.
  - destruct answer; done.
Qed.

Lemma switch_to_used_id_warns_first_witness :
  log (world_after Settings.saveEditedId settingsTaken world_refusing)
    = [EFetch "SYNC" true;
       EConfirm ("⚠️ WARNING: ID ALREADY IN USE" +:+ nl +:+ nl +:+
                 "The ID " +:+ dq +:+ "SYNC" +:+ dq +:+
                 " already has cloud data associated with it." +:+ nl +:+ nl +:+
                 "If you switch to this ID and click 'Backup Now', you will OVERWRITE the existing data." +:+
                 nl +:+ nl +:+ "Only proceed if this is YOUR ID.") false]
  ∧ Settings.syncId (ui_after Settings.saveEditedId settingsTaken world_refusing)
    = "MINE".
Proof.
  destruct (switch_to_used_id_warns_first settingsTaken world_refusing bothAB)
    as (Hlog & _ & Hid & _).
  - by vm_compute.
  - by vm_compute.
  - vm_compute. lia.
  - reflexivity.
  - reflexivity.
  - reflexivity.
  - split; [exact Hlog | exact Hid].
Defined.

(** ** Version history *)

Lemma handleRestoreVersion_cases toLocaleString version s w :
  Planner.handleRestoreVersion toLocaleString version (s, w) =
    match Planner.editing s with
    | None => (Returned (), (s, w))
    | Some tid =>
        let msg := restore_msg toLocaleString version tid in
        if user w msg then
          (Returned (),
           (restored s (Planner.restore version tid),
            with_log (λ l, l ++ [EConfirm msg true;
                                 EUpdateTrip (Planner.restore version tid);
                                 ETimeout 3000])%list w))
        else (Returned (), (s, with_log (λ l, l ++ [EConfirm msg false])%list w))
    end.
Proof.
  unfold Planner.handleRestoreVersion, restored, restore_msg. unfold_eff.
  destruct (Planner.editing s) as [tid|]; [|reflexivity]. simpl.
  destruct (user w _); simpl; rewrite <- ?app_assoc; reflexivity.
Qed.

(** C2: the trip a restore builds from a version has the target id as its
    id and every other field as the version's data has it, also when the
    data's own id is another one; the handler leaves the stored versions
    and the listed ones as they were; and when a trip is being edited and
    the user accepts, the handler hands that trip to [onUpdateTrip]. *)
Theorem restore_forces_target_id
    (toLocaleString : Z → string) (version : TripVersion) (targetId : string)
    (s : Planner.State) (w : World) :
  let t := Planner.restore version targetId in
  let s' := ui_after (Planner.handleRestoreVersion toLocaleString version) s w in
  let w' := world_after (Planner.handleRestoreVersion toLocaleString version) s w in
  (t !! "id" = Some (VStr targetId)
   ∧ ∀ k, k ≠ "id" → t !! k = v_data version !! k)
  ∧ (history w' = history w ∧ Planner.versions s' = Planner.versions s)
  ∧ (Planner.editing s = Some targetId →
     user w (restore_msg toLocaleString version targetId) = true →
     log w' = (log w ++ [EConfirm (restore_msg toLocaleString version targetId) true;
                         EUpdateTrip t; ETimeout 3000])%list
     ∧ Planner.formState s' = Planner.formOf t).
Proof.
  intros t s' w'. subst t s' w'. unfold ui_after, world_after.
  rewrite handleRestoreVersion_cases. split; [|split].
  - unfold Planner.restore. split; [apply lookup_insert_eq|].
    intros k Hk. by apply lookup_insert_ne.
  - destruct (Planner.editing s) as [tid|]; [|done]. simpl.
    by destruct (user w _).
  - intros -> Hyes. simpl. rewrite Hyes. done.
Qed.

Lemma restore_forces_target_id_witness :
  log (world_after (Planner.handleRestoreVersion (λ _, "1/1/2024") versionOfB)
         plannerA world0)
  = [EConfirm (Planner.crossTripMsg versionOfB) true;
     EUpdateTrip (<["id" := VStr "A"]> tripB50); ETimeout 3000]
  ∧ Planner.versions (ui_after (Planner.handleRestoreVersion (λ _, "1/1/2024") versionOfB)
         plannerA world0) = [versionOfB].
Proof.
  destruct (restore_forces_target_id (λ _, "1/1/2024") versionOfB "A" plannerA world0)
    as (_ & [_ Hkept] & Hcommit).
  destruct Hcommit as [Hlog _]; [reflexivity | reflexivity |].
  split; [exact Hlog | exact Hkept].
Defined.

(** C9: when a trip is being edited, is among the trips and the store
    answers, [handleSaveVersion] appends one version to the history: the
    trip with the form's fields over it, stamped with the clock, carrying
    the note typed by the user, or the placeholder ["Auto-save"] when that
    note is empty. *)
Theorem save_version_appends_note
    (trips : list Trip) (s : Planner.State) (w : World)
    (tid : string) (currentTrip : Trip) :
  Planner.editing s = Some tid →
  List.find (λ t, bool_decide (prop t "id" = VStr tid)) trips = Some currentTrip →
  default true (head (net w)) = true →
  let tripToSave : Trip := Planner.formState s ∪ currentTrip in
  let v := mkVersion (Z.of_nat (length (history w))) (prop tripToSave "id") (clock w)
             (str_or (Planner.versionNote s) Planner.PLACEHOLDER_NOTE) tripToSave in
  let w' := world_after (Planner.handleSaveVersion trips) s w in
  history w' = (history w ++ [v])%list
  ∧ (Planner.versionNote s ≠ "" → v_note v = Planner.versionNote s)
  ∧ (Planner.versionNote s = "" →
       v_note v = Planner.PLACEHOLDER_NOTE ∧ v_note v ≠ "").
Proof.
  intros Hed Hfind Hok tripToSave v w'. subst w'. split; [|split].
  - unfold world_after, Planner.handleSaveVersion, Planner.loadVersions.
    unfold_eff. rewrite Hed, Hfind. simpl. rewrite Hok. simpl.
    destruct (default true (head (tail (net w)))); reflexivity.
  - intros Hnote. simpl. unfold str_or.
    apply String.eqb_neq in Hnote. by rewrite Hnote.
  - intros Hnote. simpl. unfold str_or. rewrite Hnote. simpl. done.
Qed.

Lemma save_version_appends_note_witness :
  history (world_after (Planner.handleSaveVersion [tripB50; tripA100])
             plannerNoNote world0)
  = [mkVersion 0 (VStr "A") 0 "Auto-save"
       (<["title" := VStr "Alps, again"]> tripA100)].
Proof.
  destruct (save_version_appends_note [tripB50; tripA100] plannerNoNote world0
              "A" tripA100) as (Happ & _ & _); [reflexivity ..|].
  rewrite Happ. reflexivity.
Defined.

(** ** The generated identifier *)

Lemma substring_length_le (n m : nat) (s : string) :
  (String.length (String.substring n m s) ≤ m)%nat.
Proof.
  revert n m. induction s as [|c s IH]; intros n m; destruct n, m; simpl;
    try lia; try apply IH.
  specialize (IH 0%nat m). lia.
Qed.

Lemma toUpperCase_length (s : string) :
  String.length (toUpperCase s) = String.length s.
Proof. induction s; simpl; congruence. Qed.

(** The generated identifier has 8 characters at most. *)
Lemma generated_id_length (random36 : string) :
  (String.length (toUpperCase (Js.substring 2 10 random36)) ≤ 8)%nat.
Proof.
  rewrite toUpperCase_length. unfold Js.substring. apply substring_length_le.
Qed.

Lemma upper_char_base36 (c : ascii) :
  base36_lower c = true → base36_upper (upper_char c) = true.
Proof.
  destruct c as [[] [] [] [] [] [] [] []]; vm_compute; congruence.
Qed.

Lemma all_chars_substring (p : ascii → bool) (n m : nat) (s : string) :
  all_chars p s = true → all_chars p (String.substring n m s) = true.
Proof.
  revert n m. induction s as [|c s IH]; intros n m H; destruct n, m; simpl in *;
    try done.
  - apply andb_true_iff in H as [Hc Hs]. rewrite Hc. simpl. by apply IH.
  - apply andb_true_iff in H as [Hc Hs]. by apply IH.
  - apply andb_true_iff in H as [Hc Hs]. by apply IH.
Qed.

Lemma all_chars_toUpperCase (s : string) :
  all_chars base36_lower s = true → all_chars base36_upper (toUpperCase s) = true.
Proof.
  induction s as [|c s IH]; simpl; [done|].
  intros H. apply andb_true_iff in H as [Hc Hs].
  by rewrite upper_char_base36, IH.
Qed.

(** The generated identifier is made of upper-case base-36 digits. *)
Lemma generated_id_base36 (digits : string) :
  all_chars base36_lower digits = true →
  all_chars base36_upper
    (toUpperCase (Js.substring 2 10 (random36_digits digits))) = true.
Proof.
  intros H. apply all_chars_toUpperCase.
  unfold Js.substring, random36_digits. simpl.
  by apply all_chars_substring.
Qed.

(** It is not empty when the random number has a digit after the point. *)
Lemma generated_id_nonempty (c : ascii) (digits : string) :
  toUpperCase (Js.substring 2 10 (random36_digits (String c digits))) ≠ "".
Proof. unfold Js.substring, random36_digits. simpl. discriminate. Qed.

(** The effect stores what it generates, in the component and in the
    browser storage, and does nothing when an identifier is there. *)
Lemma ensureSyncId_cases (random36 : string) (s : Settings.State) (w : World) :
  Settings.ensureSyncId random36 (s, w) =
    if String.eqb (Settings.syncId s) "" then
      let newId := toUpperCase (Js.substring 2 10 random36) in
      (Returned (),
       (Settings.setSyncId newId s,
        with_log (λ l, l ++ [EStorageSet Settings.SYNC_ID_KEY newId])%list
          (with_localStorage (λ m, <[Settings.SYNC_ID_KEY := newId]> m) w)))
    else (Returned (), (s, w)).
Proof.
  unfold Settings.ensureSyncId. unfold_eff.
  destruct (String.eqb (Settings.syncId s) ""); reflexivity.
Qed.

(** C10: when [Math.random()] returns 0, whose base-36 string is ["0"],
    the identifier generated on a first visit is the empty string: the
    component keeps an empty identifier and the empty string is what is
    persisted. *)
Theorem generated_sync_id_can_be_empty :
  let s := Settings.initial world_fresh in
  let s' := ui_after (Settings.ensureSyncId "0") s world_fresh in
  let w' := world_after (Settings.ensureSyncId "0") s world_fresh in
  Settings.syncId s = ""
  ∧ Settings.syncId s' = ""
  ∧ localStorage w' !! Settings.SYNC_ID_KEY = Some ""
  ∧ Settings.initial w' = s'.
Proof. cbv zeta. repeat split; reflexivity. Qed.

(** ** More on the sync identifier *)

(** X1: on a text of ASCII characters, where [trim] and [toUpperCase] are
    the methods of the code, [saveEditedId] either leaves the identifier as
    it was, in the component and in the browser storage, or stores the
    normalised text of the editor in both; it does the latter only for a
    text of 4 characters or more, all of them upper-case letters, digits or
    hyphens, and after the user accepted a question. *)
Theorem saveEditedId_stores_only_valid_ids (s : Settings.State) (w : World) :
  ascii_text (Settings.tempId s) →
  let newId := toUpperCase (trim (Settings.tempId s)) in
  let s' := ui_after Settings.saveEditedId s w in
  let w' := world_after Settings.saveEditedId s w in
  (Settings.syncId s' = Settings.syncId s ∧ localStorage w' = localStorage w)
  ∨ (Settings.syncId s' = newId
     ∧ localStorage w' = <[Settings.SYNC_ID_KEY := newId]> (localStorage w)
     ∧ (4 ≤ String.length newId)%nat
     ∧ all_chars id_char newId = true
     ∧ Settings.isEditingId s' = false
     ∧ ∃ msg, user w msg = true ∧ EConfirm msg true ∈ log w').
Proof.
  intros _ newId s' w'. subst s' w'.
  unfold ui_after, world_after, Settings.saveEditedId, Settings.saveEditedIdOn.
  unfold_eff. fold newId.
  destruct (String.eqb newId "" || String.eqb newId (Settings.syncId s)); simpl;
    [by left|].
  destruct (utf16_length newId <? 4)%nat eqn:Hlen; simpl; [by left|].
  destruct (test_id_regex newId) eqn:Hre; simpl; [|by left].
  apply Nat.ltb_ge in Hlen. rewrite (utf16_length_valid _ Hre) in Hlen.
  unfold test_id_regex in Hre. apply andb_true_iff in Hre as [_ Hre].
  destruct (default true (head (net w))); simpl; [|by left].
  assert (Hyes : ∀ msg, user w msg = true →
    ∃ m, user w m = true ∧
      EConfirm m true ∈ (((log w ++ [EFetch newId true]) ++ [EConfirm msg true])
                           ++ [EStorageSet Settings.SYNC_ID_KEY newId])%list).
  { intros msg Hm. exists msg. split; [done|].
    rewrite !elem_of_app, !list_elem_of_singleton. by left; right. }
  destruct (blobs w !! newId); simpl.
  - destruct (user w (Settings.inUseMsg newId)) eqn:Hans; simpl; [|by left].
    right. repeat split; try done. by apply Hyes.
  - destruct (user w (Settings.availableMsg newId)) eqn:Hans; simpl; [|by left].
    right. repeat split; try done. by apply Hyes.
Qed.

Lemma saveEditedId_stores_only_valid_ids_witness :
  ascii_text (Settings.tempId settingsNew)
  ∧ Settings.syncId (ui_after Settings.saveEditedId settingsNew world0) = "NEW-ID"
  ∧ (4 ≤ String.length "NEW-ID")%nat.
Proof.
  split; [reflexivity|].
  destruct (saveEditedId_stores_only_valid_ids settingsNew world0)
    as [[Hsame _]|(Hid & _ & Hlen & _)]; [reflexivity | |].
  - vm_compute in Hsame. discriminate Hsame.
  - split; [exact Hid | exact Hlen].
Defined.

Lemma saveEditedId_valid (s : Settings.State) (w : World) :
  valid_new_id s →
  let newId := toUpperCase (trim (Settings.tempId s)) in
  Settings.saveEditedId (s, w) =
    try_finally
      (try_catch
         (existing ← SupabaseService.loadGlobalBackup newId;
          yes ← confirm (match existing with
                         | Some _ => Settings.inUseMsg newId
                         | None => Settings.availableMsg newId
                         end);
          if yes : bool then
            set_ui (Settings.setSyncId newId);;
            localStorage_setItem Settings.SYNC_ID_KEY newId;;
            set_ui (Settings.setIsEditingId false)
          else mret ())
         (λ e, console_error e;; alert "Could not verify ID availability."))
      (set_ui (Settings.setIsSyncing false))
      (Settings.setIsSyncing true s, w).
Proof.
  intros (Hne & Hdiff & Hlen & Hre) newId. subst newId.
  unfold Settings.saveEditedId, Settings.saveEditedIdOn. unfold_eff.
  apply String.eqb_neq in Hne, Hdiff. rewrite Hne, Hdiff. simpl.
  rewrite (utf16_length_valid _ Hre).
  apply Nat.ltb_ge in Hlen. by rewrite Hlen, Hre.
Qed.

(** X2: when the store cannot be asked whether a valid new identifier is in
    use, [saveEditedId] alerts, asks nothing, keeps the identifier and the
    editor as they were and releases the spinner. *)
Theorem saveEditedId_unverified_id_not_adopted (s : Settings.State) (w : World) :
  valid_new_id s → head (net w) = Some false →
  let newId := toUpperCase (trim (Settings.tempId s)) in
  let s' := ui_after Settings.saveEditedId s w in
  let w' := world_after Settings.saveEditedId s w in
  log w' = (log w ++ [EFetch newId false; EConsoleError "RemoteUnavailable";
                      EAlert "Could not verify ID availability."])%list
  ∧ Settings.syncId s' = Settings.syncId s
  ∧ localStorage w' = localStorage w
  ∧ Settings.isSyncing s' = false
  ∧ Settings.isEditingId s' = Settings.isEditingId s
  ∧ Settings.tempId s' = Settings.tempId s.
Proof.
  intros Hv Hnet newId s' w'. subst s' w'. unfold ui_after, world_after.
  rewrite saveEditedId_valid by done. fold newId. unfold_eff.
  rewrite Hnet. simpl. rewrite <- !app_assoc. done.
Qed.

(** X3: for a valid new identifier with no data in the store, [saveEditedId]
    still asks, with the message that the identifier seems available, and
    switches exactly when the user accepts; the store itself is not written. *)
Theorem saveEditedId_free_id_asks_too (s : Settings.State) (w : World) :
  valid_new_id s → default true (head (net w)) = true →
  let newId := toUpperCase (trim (Settings.tempId s)) in
  blobs w !! newId = None →
  let answer := user w (Settings.availableMsg newId) in
  let s' := ui_after Settings.saveEditedId s w in
  let w' := world_after Settings.saveEditedId s w in
  log w' = (log w ++ EFetch newId true
                  :: EConfirm (Settings.availableMsg newId) answer
                  :: (if answer then [EStorageSet Settings.SYNC_ID_KEY newId] else []))%list
  ∧ Settings.syncId s' = (if answer then newId else Settings.syncId s)
  ∧ Settings.isEditingId s' = (if answer then false else Settings.isEditingId s)
  ∧ Settings.isSyncing s' = false
  ∧ blobs w' = blobs w.
Proof.
  intros Hv Hnet newId Hfree answer s' w'. subst s' w'. unfold ui_after, world_after.
  rewrite saveEditedId_valid by done. fold newId. unfold_eff.
  rewrite Hnet. simpl. rewrite Hfree. fold answer.
  destruct answer; simpl; rewrite <- !app_assoc; done.
Qed.

(** *** Normalising an identifier *)

Lemma is_space_upper_char (c : ascii) : is_space (upper_char c) = is_space c.
Proof. destruct c as [[] [] [] [] [] [] [] []]; reflexivity. Qed.

Lemma upper_char_idemp (c : ascii) : upper_char (upper_char c) = upper_char c.
Proof. destruct c as [[] [] [] [] [] [] [] []]; reflexivity. Qed.

Lemma toUpperCase_idemp (s : string) : toUpperCase (toUpperCase s) = toUpperCase s.
Proof. induction s as [|c s IH]; simpl; [done|]. by rewrite upper_char_idemp, IH. Qed.

Lemma trimStart_toUpperCase (s : string) :
  trimStart (toUpperCase s) = toUpperCase (trimStart s).
Proof.
  induction s as [|c s IH]; simpl; [done|].
  rewrite is_space_upper_char. by destruct (is_space c).
Qed.

Lemma trimEnd_toUpperCase (s : string) :
  trimEnd (toUpperCase s) = toUpperCase (trimEnd s).
Proof.
  induction s as [|c s IH]; simpl; [done|].
  rewrite IH, is_space_upper_char.
  destruct (trimEnd s); simpl; [by destruct (is_space c)|done].
Qed.

Lemma trim_toUpperCase (s : string) : trim (toUpperCase s) = toUpperCase (trim s).
Proof. unfold trim. by rewrite trimStart_toUpperCase, trimEnd_toUpperCase. Qed.

Lemma trimEnd_idemp (s : string) : trimEnd (trimEnd s) = trimEnd s.
Proof.
  induction s as [|c s IH]; simpl; [done|].
  destruct (trimEnd s) as [|d r] eqn:Hs.
  - destruct (is_space c) eqn:Hc; simpl; [done|]. by rewrite Hc.
  - simpl in *. by rewrite IH.
Qed.

(** What [trimEnd] keeps of a string that starts with no space starts with
    no space. *)
Lemma trimStart_trimEnd (c : ascii) (s : string) :
  is_space c = false → trimStart (trimEnd (String c s)) = trimEnd (String c s).
Proof.
  intros Hc. simpl. destruct (trimEnd s); rewrite ?Hc; simpl; by rewrite Hc.
Qed.

Lemma trim_idemp (s : string) : trim (trim s) = trim s.
Proof.
  unfold trim.
  assert (H : ∀ t, trimStart (trimEnd (trimStart t)) = trimEnd (trimStart t)).
  { induction t as [|c t IH]; simpl; [done|].
    destruct (is_space c) eqn:Hc; [done|]. by apply trimStart_trimEnd. }
  by rewrite H, trimEnd_idemp.
Qed.

Lemma normalise_idemp (s : string) :
  toUpperCase (trim (toUpperCase (trim s))) = toUpperCase (trim s).
Proof. by rewrite trim_toUpperCase, trim_idemp, toUpperCase_idemp. Qed.

Lemma edit_and_save_normalised (s : Settings.State) (w : World) :
  toUpperCase (trim (Settings.syncId s)) = Settings.syncId s →
  edit_and_save (s, w) =
    (Returned (),
     (Settings.setIsEditingId false
        (Settings.setIsEditingId true (Settings.setTempId (Settings.syncId s) s)), w)).
Proof.
  intros Hn. unfold edit_and_save, Settings.startEditingId, Settings.saveEditedId,
    Settings.saveEditedIdOn.
  unfold_eff. rewrite Hn, String.eqb_refl, orb_true_r. reflexivity.
Qed.

Lemma saveEditedId_syncId (s : Settings.State) (w : World) :
  Settings.syncId (ui_after Settings.saveEditedId s w) = Settings.syncId s
  ∨ Settings.syncId (ui_after Settings.saveEditedId s w)
    = toUpperCase (trim (Settings.tempId s)).
Proof.
  unfold ui_after, Settings.saveEditedId, Settings.saveEditedIdOn. unfold_eff.
  set (newId := toUpperCase (trim (Settings.tempId s))).
  destruct (String.eqb newId "" || String.eqb newId (Settings.syncId s)); simpl;
    [by left|].
  destruct (utf16_length newId <? 4)%nat; simpl; [by left|].
  destruct (test_id_regex newId); simpl; [|by left].
  destruct (default true (head (net w))); simpl; [|by left].
  destruct (blobs w !! newId); simpl; destruct (user w _); simpl; auto.
Qed.

(** X4: once [saveEditedId] has switched the identifier, opening the editor
    and saving again without a change makes no remote call, asks nothing and
    closes the editor. *)
Theorem resaving_the_identifier_is_silent (s : Settings.State) (w : World) :
  let s1 := ui_after Settings.saveEditedId s w in
  let w1 := world_after Settings.saveEditedId s w in
  Settings.syncId s1 ≠ Settings.syncId s →
  world_after edit_and_save s1 w1 = w1
  ∧ Settings.syncId (ui_after edit_and_save s1 w1) = Settings.syncId s1
  ∧ Settings.isEditingId (ui_after edit_and_save s1 w1) = false.
Proof.
  intros s1 w1 Hsw.
  assert (Hn : toUpperCase (trim (Settings.syncId s1)) = Settings.syncId s1).
  { destruct (saveEditedId_syncId s w) as [Hsame|Hid]; [done|].
    fold s1 in Hid. rewrite Hid. apply normalise_idemp. }
  unfold ui_after, world_after. by rewrite edit_and_save_normalised.
Qed.

(** ** More on the sync flow *)

(** X5: whatever the store answers, a sync started from the button and a
    confirmation of the collector end with [isSyncing] false; the sync from
    the button never sets the status ['merged']. *)
Theorem sync_never_leaves_the_spinner_on
    (s : Settings.State) (w : World) (fullData : Dataset) :
  Settings.isSyncing (ui_after (Settings.handleCloudSync fullData) s w) = false
  ∧ Settings.isSyncing (ui_after (Settings.handleConfirmResolution fullData) s w) = false
  ∧ Settings.syncStatus (ui_after (Settings.handleCloudSync fullData) s w) ≠ Settings.Merged.
Proof.
  unfold ui_after. rewrite handleCloudSync_cases, handleConfirmResolution_eq.
  rewrite !performSync_cases.
  destruct (default true (head (net w))); simpl.
  - destruct (0 <? length _)%nat; simpl;
      destruct (default true (head (tail (net w)))); done.
  - done.
Qed.

(** X6: a sync that finds conflicts only fetches: it writes nothing to the
    store or to the browser storage, imports nothing, and keeps the fetched
    remote dataset for the confirmation. *)
Theorem conflicts_defer_every_write
    (s : Settings.State) (w : World) (fullData : Dataset) :
  let remoteData := blobs w !! Settings.syncId s in
  let found := Differ.detectConflicts fullData (default empty_dataset remoteData) in
  default true (head (net w)) = true → found ≠ [] →
  let s' := ui_after (Settings.handleCloudSync fullData) s w in
  let w' := world_after (Settings.handleCloudSync fullData) s w in
  log w' = (log w ++ [EFetch (Settings.syncId s) true])%list
  ∧ blobs w' = blobs w
  ∧ localStorage w' = localStorage w
  ∧ Settings.remoteDataCache s' = remoteData
  ∧ Settings.syncStatus s' = Settings.Idle
  ∧ Settings.syncId s' = Settings.syncId s.
Proof.
  intros remoteData found Hok Hne s' w'. subst s' w'. unfold ui_after, world_after.
  rewrite handleCloudSync_cases, Hok. fold remoteData found.
  destruct found as [|c cs]; [done|]. simpl. done.
Qed.

Lemma conflicts_defer_every_write_witness :
  log (world_after (Settings.handleCloudSync onlyA) settings0 world0)
    = [EFetch "SYNC" true]
  ∧ blobs (world_after (Settings.handleCloudSync onlyA) settings0 world0)
    = blobs world0.
Proof.
  destruct (conflicts_defer_every_write settings0 world0 onlyA)
    as (Hlog & Hblobs & _); [reflexivity | by vm_compute |].
  split; [exact Hlog | exact Hblobs].
Defined.

(** X7: when the write of a confirmation fails, the collector stays open with
    its conflicts, its cached remote dataset and the user's choices, so that
    a second confirmation writes and imports the very merge the first one
    attempted. *)
Theorem failed_confirmation_can_be_retried
    (s : Settings.State) (w : World) (fullData : Dataset) :
  head (net w) = Some false →
  let s' := ui_after (Settings.handleConfirmResolution fullData) s w in
  let w' := world_after (Settings.handleConfirmResolution fullData) s w in
  Settings.showConflictModal s' = Settings.showConflictModal s
  ∧ Settings.conflicts s' = Settings.conflicts s
  ∧ Settings.remoteDataCache s' = Settings.remoteDataCache s
  ∧ Settings.resolutionMap s' = Settings.resolutionMap s
  ∧ Settings.syncStatus s' = Settings.Error
  ∧ blobs w' = blobs w
  ∧ (∀ w2, default true (head (net w2)) = true →
       log (world_after (Settings.handleConfirmResolution fullData) s' w2)
       = (log w2 ++ [EWrite (Settings.syncId s)
                       (Merge.merge fullData
                          (default empty_dataset (Settings.remoteDataCache s))
                          (Settings.resolutionMap s)) true;
                     EImport (Merge.merge fullData
                          (default empty_dataset (Settings.remoteDataCache s))
                          (Settings.resolutionMap s));
                     EAlert "Sync successful! Changes have been merged.";
                     ETimeout 3000])%list).
Proof.
  intros Hfail s' w'. subst s' w'. unfold ui_after, world_after.
  rewrite !handleConfirmResolution_eq, !performSync_cases, Hfail. simpl.
  repeat split; try done.
  intros w2 Hok2. rewrite handleConfirmResolution_eq, performSync_cases. simpl.
  by rewrite Hok2.
Qed.

Lemma failed_confirmation_can_be_retried_witness :
  Settings.showConflictModal
    (ui_after (Settings.handleConfirmResolution onlyA) settings_conflict world_down) = true
  ∧ Settings.resolutionMap
    (ui_after (Settings.handleConfirmResolution onlyA) settings_conflict world_down)
    = {[ "A" := Remote ]}.
Proof.
  destruct (failed_confirmation_can_be_retried settings_conflict world_down onlyA)
    as (Hmodal & _ & _ & Hmap & _); [reflexivity|].
  split; [exact Hmodal | exact Hmap].
Defined.

(** X8: a confirmation never fetches: its first event is the one write of
    the merge of the local dataset with the cached remote one under the chosen
    resolutions, and no other read or write of the store follows. *)
Theorem confirmation_uses_the_fetched_copy
    (s : Settings.State) (w : World) (fullData : Dataset) :
  let m := Merge.merge fullData (default empty_dataset (Settings.remoteDataCache s))
             (Settings.resolutionMap s) in
  let w' := world_after (Settings.handleConfirmResolution fullData) s w in
  ∃ ok rest,
    log w' = (log w ++ EWrite (Settings.syncId s) m ok :: rest)%list
    ∧ (∀ sid b, EFetch sid b ∉ rest)
    ∧ (∀ sid d b, EWrite sid d b ∉ rest).
Proof.
  intros m w'. subst w'. unfold world_after.
  rewrite handleConfirmResolution_eq, performSync_cases. fold m.
  destruct (default true (head (net w))); simpl.
  - eexists true, _. split; [reflexivity|].
    split; intros; intros Hin;
      repeat (apply elem_of_cons in Hin as [Hin|Hin]; [discriminate|]);
      by apply elem_of_nil in Hin.
  - eexists false, _. split; [reflexivity|].
    split; intros; intros Hin;
      repeat (apply elem_of_cons in Hin as [Hin|Hin]; [discriminate|]);
      by apply elem_of_nil in Hin.
Qed.

(** X9: when a sync finds conflicts, the user flips one trip and confirms,
    the dataset written and imported is the merge of the local dataset with
    the dataset fetched by that sync under the initial map with that one
    entry changed; the collector is then closed and emptied. *)
Theorem flipped_choice_reaches_the_merge
    (s : Settings.State) (w : World) (fullData : Dataset)
    (tid : string) (value : Side) :
  let remoteData := blobs w !! Settings.syncId s in
  let found := Differ.detectConflicts fullData (default empty_dataset remoteData) in
  default true (head (net w)) = true → found ≠ [] →
  default true (head (tail (net w))) = true →
  let m := Merge.merge fullData (default empty_dataset remoteData)
             (<[tid := value]> (Settings.initialMap found)) in
  let s' := ui_after (sync_flip_confirm fullData tid value) s w in
  let w' := world_after (sync_flip_confirm fullData tid value) s w in
  log w' = (log w ++ [EFetch (Settings.syncId s) true;
                      EWrite (Settings.syncId s) m true; EImport m;
                      EAlert "Sync successful! Changes have been merged.";
                      ETimeout 3000])%list
  ∧ blobs w' = <[Settings.syncId s := m]> (blobs w)
  ∧ Settings.showConflictModal s' = false
  ∧ Settings.conflicts s' = []
  ∧ Settings.remoteDataCache s' = None.
Proof.
  intros remoteData found Hok Hne Hok2 m s' w'. subst s' w'.
  unfold ui_after, world_after, sync_flip_confirm.
  unfold mbind, M_bind, bind.
  rewrite handleCloudSync_cases, Hok. fold remoteData found.
  destruct found as [|c cs] eqn:Hf; [done|].
  change (0 <? length (c :: cs))%nat with true. cbv iota.
  unfold conflicts_found, Settings.handleResolutionChange, set_ui. simpl.
  rewrite handleConfirmResolution_eq, performSync_cases. simpl.
  rewrite Hok2. simpl. rewrite <- app_assoc. done.
Qed.

Lemma flipped_choice_reaches_the_merge_witness :
  ∃ m, EImport m ∈ log (world_after (sync_flip_confirm onlyA "A" Remote) settings0 world0)
       ∧ trips m = trips bothAB.
Proof.
  destruct (flipped_choice_reaches_the_merge settings0 world0 onlyA "A" Remote)
    as (Hlog & _); [reflexivity | by vm_compute | reflexivity |].
  eexists. split.
  - rewrite Hlog, elem_of_app, !elem_of_cons. right; right; right; by left.
  - apply map_eq. intros id. simpl. rewrite merge_trips_lookup.
    destruct (decide (id = "A")) as [->|HA]; [reflexivity|].
    change (trips onlyA !! id) with (({[ "A" := tripA100 ]} : gmap string Trip) !! id).
    rewrite (lookup_singleton_ne "A" id) by done.
    by destruct (_ !! id).
Defined.

(** ** Restoring from an identifier *)

Lemma handleCloudRestore_blank (c : Restore.Cells) (w : World) :
  trim (Restore.inputSyncId c) = "" →
  Restore.handleCloudRestore (c, w) = (Returned (), (c, w)).
Proof.
  intros Hblank. unfold Restore.handleCloudRestore. unfold_eff.
  by rewrite Hblank.
Qed.

(** X10: with a restore field that is empty or blank, [handleCloudRestore]
    does nothing at all. *)
Theorem restore_ignores_blank_input (c : Restore.Cells) (w : World) :
  trim (Restore.inputSyncId c) = "" →
  run Restore.handleCloudRestore c w = (Returned (), (c, w)).
Proof.
  intros Hblank. unfold run. by apply handleCloudRestore_blank.
Qed.

Lemma restore_ignores_blank_input_witness :
  run Restore.handleCloudRestore (Restore.mkCells settings0 "   ") world_down
  = (Returned (), (Restore.mkCells settings0 "   ", world_down)).
Proof. apply restore_ignores_blank_input. reflexivity. Defined.

Lemma handleCloudRestore_cases (c : Restore.Cells) (w : World) :
  trim (Restore.inputSyncId c) ≠ "" →
  let targetId := toUpperCase (trim (Restore.inputSyncId c)) in
  let s := Restore.settings c in
  let w1 := with_net tail w in
  Restore.handleCloudRestore (c, w) =
    (Returned (),
     if default true (head (net w)) then
       match blobs w !! targetId with
       | Some data =>
           if user w (Restore.foundMsg targetId) then
             (Restore.mkCells
                (Settings.setIsSyncing false
                   (Settings.setSyncId targetId (Settings.setIsSyncing true s))) "",
              with_log (λ l, l ++ [EFetch targetId true;
                                   EConfirm (Restore.foundMsg targetId) true;
                                   EImport data;
                                   EStorageSet Settings.SYNC_ID_KEY targetId;
                                   EAlert (Restore.restoredMsg targetId)])%list
                (with_localStorage (λ m, <[Settings.SYNC_ID_KEY := targetId]> m) w1))
           else
             (Restore.mkCells (Settings.setIsSyncing false (Settings.setIsSyncing true s))
                (Restore.inputSyncId c),
              with_log (λ l, l ++ [EFetch targetId true;
                                   EConfirm (Restore.foundMsg targetId) false])%list w1)
       | None =>
           (Restore.mkCells (Settings.setIsSyncing false (Settings.setIsSyncing true s))
              (Restore.inputSyncId c),
            with_log (λ l, l ++ [EFetch targetId true;
                                 EAlert Restore.MSG_NOT_FOUND])%list w1)
       end
     else
       (Restore.mkCells (Settings.setIsSyncing false (Settings.setIsSyncing true s))
          (Restore.inputSyncId c),
        with_log (λ l, l ++ [EFetch targetId false;
                             EConsoleError "RemoteUnavailable";
                             EAlert Restore.MSG_RESTORE_FAILED])%list w1)).
Proof.
  intros Hne targetId s w1. subst targetId s w1.
  unfold Restore.handleCloudRestore, Restore.on_settings, Restore.setInputSyncId.
  unfold_eff. apply String.eqb_neq in Hne. rewrite Hne.
  destruct (default true (head (net w))) eqn:Hnet; simpl; rewrite ?Hnet; simpl.
  - destruct (blobs w !! _) eqn:Hblob; simpl; rewrite ?Hblob; simpl.
    + destruct (user w _) eqn:Hans; simpl; rewrite ?Hans; simpl;
        rewrite <- ?app_assoc; reflexivity.
    + rewrite <- ?app_assoc; reflexivity.
  - rewrite <- ?app_assoc; reflexivity.
Qed.

(** X11: when the store holds a backup under the typed identifier (trimmed,
    in upper case) and the user accepts, [handleCloudRestore] imports that
    backup and links the app to the identifier, of any length or shape, in
    the component and in the browser storage, and clears the field. *)
Theorem restore_adopts_the_confirmed_backup
    (c : Restore.Cells) (w : World) (data : Dataset) :
  let targetId := toUpperCase (trim (Restore.inputSyncId c)) in
  trim (Restore.inputSyncId c) ≠ "" →
  default true (head (net w)) = true →
  blobs w !! targetId = Some data →
  user w (Restore.foundMsg targetId) = true →
  let c' := ui_after Restore.handleCloudRestore c w in
  let w' := world_after Restore.handleCloudRestore c w in
  log w' = (log w ++ [EFetch targetId true;
                      EConfirm (Restore.foundMsg targetId) true;
                      EImport data;
                      EStorageSet Settings.SYNC_ID_KEY targetId;
                      EAlert (Restore.restoredMsg targetId)])%list
  ∧ Settings.syncId (Restore.settings c') = targetId
  ∧ localStorage w' = <[Settings.SYNC_ID_KEY := targetId]> (localStorage w)
  ∧ Restore.inputSyncId c' = ""
  ∧ Settings.isSyncing (Restore.settings c') = false
  ∧ blobs w' = blobs w.
Proof.
  intros targetId Hne Hok Hblob Hyes c' w'. subst c' w'. unfold ui_after, world_after.
  rewrite handleCloudRestore_cases by done. fold targetId.
  rewrite Hok, Hblob, Hyes. simpl. done.
Qed.

Lemma restore_adopts_the_confirmed_backup_witness :
  Settings.syncId (Restore.settings
    (ui_after Restore.handleCloudRestore (Restore.mkCells settingsAB " sync ") world0))
  = "SYNC"
  ∧ EImport bothAB ∈ log (world_after Restore.handleCloudRestore
                            (Restore.mkCells settingsAB " sync ") world0).
Proof.
  destruct (restore_adopts_the_confirmed_backup
              (Restore.mkCells settingsAB " sync ") world0 bothAB)
    as (Hlog & Hid & _); [by vm_compute | reflexivity | reflexivity | reflexivity |].
  split; [exact Hid|].
  rewrite Hlog, elem_of_app, !elem_of_cons. right; right; right; by left.
Defined.

(** X12: for a restore field of ASCII characters, where [trim] and
    [toUpperCase] are the methods of the code: when the fetch fails, when no
    backup is found under the trimmed, upper-cased text or when the user
    declines, [handleCloudRestore] imports nothing and leaves identifier,
    browser storage, store and field as they were. *)
Theorem restore_changes_nothing_otherwise (c : Restore.Cells) (w : World) :
  ascii_text (Restore.inputSyncId c) →
  let targetId := toUpperCase (trim (Restore.inputSyncId c)) in
  head (net w) = Some false ∨ blobs w !! targetId = None
    ∨ user w (Restore.foundMsg targetId) = false →
  let c' := ui_after Restore.handleCloudRestore c w in
  let w' := world_after Restore.handleCloudRestore c w in
  Settings.syncId (Restore.settings c') = Settings.syncId (Restore.settings c)
  ∧ localStorage w' = localStorage w
  ∧ blobs w' = blobs w
  ∧ Restore.inputSyncId c' = Restore.inputSyncId c
  ∧ (∀ d, EImport d ∈ log w' → EImport d ∈ log w).
Proof.
  intros _ targetId Hcase c' w'. subst c' w'. unfold ui_after, world_after.
  destruct (decide (trim (Restore.inputSyncId c) = "")) as [Hb|Hb].
  { by rewrite handleCloudRestore_blank. }
  rewrite handleCloudRestore_cases by done. fold targetId.
  assert (Hdrop : ∀ (l evs : list Event) d,
            (∀ d', EImport d' ∉ evs) → EImport d ∈ (l ++ evs)%list → EImport d ∈ l).
  { intros l evs d Hno Hin. apply elem_of_app in Hin as [Hin|Hin]; [done|].
    by destruct (Hno d). }
  assert (Hfail : ∀ d' a b e, EImport d' ∉ [EFetch a b; e] → True) by done.
  destruct (default true (head (net w))) eqn:Hnet; simpl.
  - destruct (blobs w !! targetId) as [data|] eqn:Hblob; simpl.
    + destruct (user w (Restore.foundMsg targetId)) eqn:Hans; simpl.
      * exfalso. destruct Hcase as [Hc|[Hc|Hc]]; try done.
        rewrite Hc in Hnet. discriminate.
      * repeat split; try done. intros d. apply Hdrop. intros d' Hin.
        repeat (apply elem_of_cons in Hin as [Hin|Hin]; [discriminate|]).
        by apply elem_of_nil in Hin.
    + repeat split; try done. intros d. apply Hdrop. intros d' Hin.
      repeat (apply elem_of_cons in Hin as [Hin|Hin]; [discriminate|]).
      by apply elem_of_nil in Hin.
  - repeat split; try done. intros d. apply Hdrop. intros d' Hin.
    repeat (apply elem_of_cons in Hin as [Hin|Hin]; [discriminate|]).
    by apply elem_of_nil in Hin.
Qed.

Lemma restore_changes_nothing_otherwise_witness :
  Settings.syncId (Restore.settings
    (ui_after Restore.handleCloudRestore (Restore.mkCells settingsTaken "sync")
       world_refusing)) = "MINE".
Proof.
  destruct (restore_changes_nothing_otherwise
              (Restore.mkCells settingsTaken "sync") world_refusing) as (Hid & _).
  - reflexivity.
  - right. right. reflexivity.
  - exact Hid.
Defined.

(** X13: if the identifier shown by the component is the one in the browser
    storage, it still is after saving an edited identifier, after a sync,
    after a confirmation, after the generating effect and after a restore. *)
Theorem shown_identifier_is_the_stored_one
    (s : Settings.State) (w : World) (fullData : Dataset)
    (random36 input : string) :
  persisted s w →
  persisted (ui_after Settings.saveEditedId s w) (world_after Settings.saveEditedId s w)
  ∧ persisted (ui_after (Settings.handleCloudSync fullData) s w)
              (world_after (Settings.handleCloudSync fullData) s w)
  ∧ persisted (ui_after (Settings.handleConfirmResolution fullData) s w)
              (world_after (Settings.handleConfirmResolution fullData) s w)
  ∧ persisted (ui_after (Settings.ensureSyncId random36) s w)
              (world_after (Settings.ensureSyncId random36) s w)
  ∧ persisted
      (Restore.settings (ui_after Restore.handleCloudRestore (Restore.mkCells s input) w))
      (world_after Restore.handleCloudRestore (Restore.mkCells s input) w).
Proof.
  unfold persisted. intros Hp. repeat split.
  - unfold ui_after, world_after, Settings.saveEditedId, Settings.saveEditedIdOn.
    unfold_eff.
    set (newId := toUpperCase (trim (Settings.tempId s))).
    destruct (String.eqb newId "" || String.eqb newId (Settings.syncId s)); simpl;
      [done|].
    destruct (utf16_length newId <? 4)%nat; simpl; [done|].
    destruct (test_id_regex newId); simpl; [|done].
    destruct (default true (head (net w))); simpl; [|done].
    destruct (blobs w !! newId); simpl; destruct (user w _); simpl;
      try done; by rewrite lookup_insert_eq.
  - unfold ui_after, world_after. rewrite handleCloudSync_cases.
    destruct (default true (head (net w))); simpl; [|done].
    destruct (0 <? length _)%nat; simpl; [done|].
    rewrite performSync_cases.
    by destruct (default true (head (net (fetched s w)))).
  - unfold ui_after, world_after.
    rewrite handleConfirmResolution_eq, performSync_cases.
    by destruct (default true (head (net w))).
  - unfold ui_after, world_after. rewrite ensureSyncId_cases.
    destruct (String.eqb (Settings.syncId s) ""); simpl; [|done].
    by rewrite lookup_insert_eq.
  - unfold ui_after, world_after.
    destruct (decide (trim input = "")) as [Hb|Hb].
    { by rewrite handleCloudRestore_blank. }
    rewrite handleCloudRestore_cases by done. simpl.
    destruct (default true (head (net w))); simpl; [|done].
    destruct (blobs w !! _); simpl; [|done].
    destruct (user w _); simpl; [|done]. by rewrite lookup_insert_eq.
Qed.

(** ** More on the generated identifier *)

(** X14: with no identifier, the effect generates one of 8 characters at
    most, stores it without any remote call, and a reload reads the same
    identifier back; with an identifier present the effect does nothing. *)
Theorem ensureSyncId_generates_once
    (random36 : string) (s : Settings.State) (w : World) :
  let s' := ui_after (Settings.ensureSyncId random36) s w in
  let w' := world_after (Settings.ensureSyncId random36) s w in
  (Settings.syncId s = "" →
     (String.length (Settings.syncId s') ≤ 8)%nat
     ∧ log w' = (log w ++ [EStorageSet Settings.SYNC_ID_KEY (Settings.syncId s')])%list
     ∧ Settings.syncId (Settings.initial w') = Settings.syncId s'
     ∧ blobs w' = blobs w ∧ net w' = net w)
  ∧ (Settings.syncId s ≠ "" →
     run (Settings.ensureSyncId random36) s w = (Returned (), (s, w))).
Proof.
  intros s' w'. subst s' w'. unfold ui_after, world_after, run.
  rewrite ensureSyncId_cases. split.
  - intros ->. simpl. split; [apply generated_id_length|].
    split; [done|]. split; [|done].
    unfold Settings.initial. simpl. by rewrite lookup_insert_eq.
  - intros Hne. apply String.eqb_neq in Hne. by rewrite Hne.
Qed.

Lemma ensureSyncId_generates_once_witness :
  Settings.syncId (ui_after (Settings.ensureSyncId "0.4fzyo82mvyr")
                     (Settings.initial world_fresh) world_fresh) = "4FZYO82M"
  ∧ run (Settings.ensureSyncId "0.4fzyo82mvyr") settings0 world0
    = (Returned (), (settings0, world0)).
Proof.
  split; [reflexivity|].
  apply (ensureSyncId_generates_once "0.4fzyo82mvyr" settings0 world0). discriminate.
Defined.

Lemma id_char_normal (c : ascii) :
  id_char c = true → is_space c = false ∧ upper_char c = c.
Proof. destruct c as [[] [] [] [] [] [] [] []]; vm_compute; by try split. Qed.

Lemma valid_id_toUpperCase (s : string) :
  all_chars id_char s = true → toUpperCase s = s.
Proof.
  induction s as [|c s IH]; simpl; [done|].
  intros H. apply andb_true_iff in H as [Hc Hs].
  destruct (id_char_normal c Hc) as [_ ->]. by rewrite IH.
Qed.

Lemma valid_id_trimEnd (s : string) :
  all_chars id_char s = true → trimEnd s = s.
Proof.
  induction s as [|c s IH]; simpl; [done|].
  intros H. apply andb_true_iff in H as [Hc Hs].
  destruct (id_char_normal c Hc) as [Hsp _]. rewrite IH, Hsp by done.
  by destruct s.
Qed.

Lemma valid_id_trim (s : string) : all_chars id_char s = true → trim s = s.
Proof.
  intros H. unfold trim. destruct s as [|c s]; [done|].
  simpl in H. apply andb_true_iff in H as [Hc Hs].
  destruct (id_char_normal c Hc) as [Hsp _].
  simpl trimStart. rewrite Hsp. apply valid_id_trimEnd. simpl. by rewrite Hc, Hs.
Qed.

Lemma substring_prefix_length (m : nat) (s : string) :
  String.length (String.substring 0 m s) = Nat.min m (String.length s).
Proof.
  revert m. induction s as [|c s IH]; intros [|m]; simpl; try done.
  by rewrite IH.
Qed.

Lemma base36_upper_id_char (c : ascii) : base36_upper c = true → id_char c = true.
Proof. destruct c as [[] [] [] [] [] [] [] []]; vm_compute; congruence. Qed.

Lemma all_chars_impl (p q : ascii → bool) (s : string) :
  (∀ c, p c = true → q c = true) → all_chars p s = true → all_chars q s = true.
Proof.
  intros Hpq. induction s as [|c s IH]; simpl; [done|].
  intros H. apply andb_true_iff in H as [Hc Hs]. by rewrite (Hpq c Hc), IH.
Qed.

(** X15: an identifier generated from a random number with 4 base-36 digits
    or more is one the editor accepts: 4 to 8 characters, all of the class
    [[A-Z0-9-]], and unchanged by the editor's trimming and upper-casing. *)
Theorem generated_id_passes_the_editor (digits : string) :
  all_chars base36_lower digits = true →
  (4 ≤ String.length digits)%nat →
  let newId := toUpperCase (Js.substring 2 10 (random36_digits digits)) in
  (4 ≤ String.length newId ≤ 8)%nat
  ∧ test_id_regex newId = true
  ∧ toUpperCase (trim newId) = newId.
Proof.
  intros Hd Hlen newId.
  assert (Hchars : all_chars id_char newId = true).
  { eapply all_chars_impl; [apply base36_upper_id_char|].
    by apply generated_id_base36. }
  assert (Hl : (4 ≤ String.length newId)%nat).
  { subst newId. rewrite toUpperCase_length.
    unfold Js.substring, random36_digits. simpl.
    rewrite substring_prefix_length.
    change ("" +:+ digits) with digits. lia. }
  split; [|split].
  - split; [done | apply generated_id_length].
  - unfold test_id_regex. rewrite Hchars, andb_true_r.
    destruct newId; [simpl in Hl; lia | done].
  - by rewrite valid_id_trim, valid_id_toUpperCase.
Qed.

Lemma generated_id_passes_the_editor_witness :
  test_id_regex (toUpperCase (Js.substring 2 10 (random36_digits "4fzyo82mvyr"))) = true.
Proof.
  destruct (generated_id_passes_the_editor "4fzyo82mvyr") as (_ & Hre & _);
    [reflexivity | vm_compute; lia | exact Hre].
Defined.

(** ** More on the version history *)

(** X16: [handleSaveVersion] does nothing, and calls nothing, when no trip is
    being edited or when the edited trip is not among the trips. *)
Theorem save_version_needs_an_open_trip
    (trips : list Trip) (s : Planner.State) (w : World) :
  (Planner.editing s = None
   ∨ ∃ tid, Planner.editing s = Some tid
            ∧ List.find (λ t, bool_decide (prop t "id" = VStr tid)) trips = None) →
  run (Planner.handleSaveVersion trips) s w = (Returned (), (s, w)).
Proof.
  intros [Hn|(tid & Hed & Hf)];
    unfold run, Planner.handleSaveVersion; unfold_eff.
  - by rewrite Hn.
  - by rewrite Hed, Hf.
Qed.

Lemma save_version_needs_an_open_trip_witness :
  run (Planner.handleSaveVersion [tripB50]) plannerNoNote world0
  = (Returned (), (plannerNoNote, world0)).
Proof.
  apply save_version_needs_an_open_trip. right. exists "A". by split.
Defined.

(** X17: when the save of a version fails, the user is alerted, the note
    typed stays in its field, the listed versions are not reloaded and the
    history is as it was. *)
Theorem failed_save_keeps_the_note
    (trips : list Trip) (s : Planner.State) (w : World)
    (tid : string) (currentTrip : Trip) :
  Planner.editing s = Some tid →
  List.find (λ t, bool_decide (prop t "id" = VStr tid)) trips = Some currentTrip →
  head (net w) = Some false →
  let tripToSave : Trip := Planner.formState s ∪ currentTrip in
  let v := mkVersion (Z.of_nat (length (history w))) (prop tripToSave "id") (clock w)
             (str_or (Planner.versionNote s) Planner.PLACEHOLDER_NOTE) tripToSave in
  let s' := ui_after (Planner.handleSaveVersion trips) s w in
  let w' := world_after (Planner.handleSaveVersion trips) s w in
  history w' = history w
  ∧ log w' = (log w ++ [EAppendVersion v false; EAlert "Failed to save version."])%list
  ∧ Planner.versionNote s' = Planner.versionNote s
  ∧ Planner.versions s' = Planner.versions s
  ∧ Planner.isLoadingVersions s' = false
  ∧ net w' = tail (net w).
Proof.
  intros Hed Hfind Hfail tripToSave v s' w'. subst s' w'.
  unfold ui_after, world_after, Planner.handleSaveVersion. unfold_eff.
  rewrite Hed, Hfind. simpl. rewrite Hfail. simpl.
  rewrite <- !app_assoc. done.
Qed.

Lemma failed_save_keeps_the_note_witness :
  Planner.versionNote
    (ui_after (Planner.handleSaveVersion [tripA100]) plannerWithNote world_down) = "draft"
  ∧ history (world_after (Planner.handleSaveVersion [tripA100]) plannerWithNote world_down)
    = [].
Proof.
  destruct (failed_save_keeps_the_note [tripA100] plannerWithNote world_down "A" tripA100)
    as (Hh & _ & Hnote & _); [reflexivity ..|].
  split; [exact Hnote | exact Hh].
Defined.

(** X18: [loadVersions] does nothing when no trip is being edited; when the
    store fails it alerts and keeps the versions listed before; it never
    changes the stored history. *)
Theorem loadVersions_failure_keeps_the_list (snap s : Planner.State) (w : World) :
  let s' := ui_after (Planner.loadVersions snap) s w in
  let w' := world_after (Planner.loadVersions snap) s w in
  (Planner.editing snap = None →
     run (Planner.loadVersions snap) s w = (Returned (), (s, w)))
  ∧ (∀ tid, Planner.editing snap = Some tid → head (net w) = Some false →
       Planner.versions s' = Planner.versions s
       ∧ Planner.isLoadingVersions s' = false
       ∧ log w' = (log w ++ [EListVersions tid false;
                             EConsoleError "RemoteUnavailable";
                             EAlert "Failed to load versions. Check connection."])%list)
  ∧ history w' = history w.
Proof.
  intros s' w'. subst s' w'. unfold run, ui_after, world_after, Planner.loadVersions.
  split; [|split].
  - intros ->. reflexivity.
  - intros tid -> Hfail. unfold_eff. rewrite Hfail. simpl.
    rewrite <- !app_assoc. done.
  - destruct (Planner.editing snap); [|done]. unfold_eff.
    by destruct (default true (head (net w))).
Qed.

Lemma loadVersions_failure_keeps_the_list_witness :
  Planner.versions (ui_after (Planner.loadVersions plannerA) plannerA world_down)
  = [versionOfB].
Proof.
  destruct (loadVersions_failure_keeps_the_list plannerA plannerA world_down)
    as (_ & Hfail & _).
  destruct (Hfail "A") as (Hv & _); [reflexivity | reflexivity | exact Hv].
Defined.

(** X19: [handleRestoreVersion] asks nothing when no trip is being edited,
    and a declined question leaves the component as it was, with no call of
    [onUpdateTrip]. *)
Theorem declined_restore_changes_nothing
    (toLocaleString : Z → string) (version : TripVersion)
    (s : Planner.State) (w : World) :
  (Planner.editing s = None →
     run (Planner.handleRestoreVersion toLocaleString version) s w
     = (Returned (), (s, w)))
  ∧ (∀ tid, Planner.editing s = Some tid →
       user w (restore_msg toLocaleString version tid) = false →
       ui_after (Planner.handleRestoreVersion toLocaleString version) s w = s
       ∧ log (world_after (Planner.handleRestoreVersion toLocaleString version) s w)
         = (log w ++ [EConfirm (restore_msg toLocaleString version tid) false])%list).
Proof.
  unfold run, ui_after, world_after. rewrite handleRestoreVersion_cases. split.
  - by intros ->.
  - intros tid -> Hno. simpl. by rewrite Hno.
Qed.

Lemma declined_restore_changes_nothing_witness :
  ui_after (Planner.handleRestoreVersion (λ _, "1/1/2024") versionOfB)
    plannerA world_refusing = plannerA.
Proof.
  destruct (declined_restore_changes_nothing (λ _, "1/1/2024") versionOfB
              plannerA world_refusing) as [_ Hdecl].
  destruct (Hdecl "A") as [Hs _]; [reflexivity | reflexivity | exact Hs].
Defined.

(** X20: restoring a version into the trip it was taken from gives exactly
    the stored data and asks the plain question; restoring it into another
    trip changes the data and asks the cross-trip warning; restoring twice is
    restoring once. *)
Theorem restore_into_own_trip_is_exact
    (toLocaleString : Z → string) (version : TripVersion) (tid : string) :
  (v_data version !! "id" = Some (VStr tid) →
     Planner.restore version tid = v_data version
     ∧ restore_msg toLocaleString version tid
       = Planner.sameTripMsg toLocaleString version)
  ∧ (prop (v_data version) "id" ≠ VStr tid →
     Planner.restore version tid ≠ v_data version
     ∧ restore_msg toLocaleString version tid = Planner.crossTripMsg version)
  ∧ Planner.restore
      (mkVersion (v_id version) (v_tripId version) (v_timestamp version)
         (v_note version) (Planner.restore version tid)) tid
    = Planner.restore version tid.
Proof.
  unfold Planner.restore, restore_msg. split; [|split].
  - intros Hid. split; [by apply insert_id|].
    rewrite bool_decide_eq_false_2; [done|].
    intros Hne. apply Hne. unfold prop. by rewrite Hid.
  - intros Hne. split.
    + intros Heq. apply Hne. unfold prop. rewrite <- Heq.
      by rewrite lookup_insert_eq.
    + by rewrite bool_decide_eq_true_2.
  - simpl. apply insert_insert_eq.
Qed.

Lemma restore_into_own_trip_is_exact_witness :
  Planner.restore versionOfB "B" = tripB50
  ∧ Planner.restore versionOfB "A" ≠ tripB50.
Proof.
  destruct (restore_into_own_trip_is_exact (λ _, "1/1/2024") versionOfB "B")
    as (Hown & _ & _).
  destruct (restore_into_own_trip_is_exact (λ _, "1/1/2024") versionOfB "A")
    as (_ & Hcross & _).
  split.
  - apply Hown. reflexivity.
  - apply Hcross. by vm_compute.
Defined.

(** ** The trip form *)

Lemma handleSubmit_manual ai trips (c : PlannerForm.Cells) (w : World) :
  PlannerForm.plannerMode c = PlannerForm.Manual →
  PlannerForm.handleSubmit ai trips (c, w) =
    if negb (truthy (prop (form_of c) "startDate"))
       || negb (truthy (prop (form_of c) "endDate"))
    then (Returned None, (c, w))
    else
      match Planner.editing (PlannerForm.planner c) with
      | Some tid =>
          match List.find (λ t, bool_decide (prop t "id" = VStr tid)) trips with
          | Some existingTrip =>
              (Returned None,
               (closed_form c,
                with_log (λ l, l ++ [EUpdateTrip (form_of c ∪ existingTrip)])%list w))
          | None => (Returned None, (closed_form c, w))
          end
      | None =>
          (Returned (Some (PlannerForm.newTrip (clock w) (form_of c))),
           (closed_form c, w))
      end.
Proof.
  intros Hm. unfold PlannerForm.handleSubmit, PlannerForm.resetForm, closed_form, form_of.
  unfold_eff. rewrite Hm.
  destruct (negb _ || negb _); [reflexivity|].
  destruct (Planner.editing _) as [tid|]; [|reflexivity].
  destruct (List.find _ trips); reflexivity.
Qed.

(** X21: in manual mode, a form without a start date or without an end date
    is not submitted: nothing is called and the form stays as it is. *)
Theorem submit_without_dates_does_nothing
    (ai : M PlannerForm.Cells unit) (trips : list Trip)
    (c : PlannerForm.Cells) (w : World) :
  PlannerForm.plannerMode c = PlannerForm.Manual →
  truthy (prop (form_of c) "startDate") = false
    ∨ truthy (prop (form_of c) "endDate") = false →
  run (PlannerForm.handleSubmit ai trips) c w = (Returned None, (c, w)).
Proof.
  intros Hm Hd. unfold run. rewrite handleSubmit_manual by done.
  by destruct Hd as [-> | ->]; rewrite ?orb_true_r.
Qed.

(** X22: submitting the form of an edited trip hands [onUpdateTrip] the trip
    with the form's fields over it: every other field, the id included, is
    the existing trip's; if the trip is no longer among the trips nothing is
    called; either way the form is closed and reset. *)
Theorem submit_updates_only_the_form_fields
    (ai : M PlannerForm.Cells unit) (trips : list Trip)
    (c : PlannerForm.Cells) (w : World) (tid : string) :
  PlannerForm.plannerMode c = PlannerForm.Manual →
  has_dates (form_of c) →
  Planner.editing (PlannerForm.planner c) = Some tid →
  let c' := ui_after (PlannerForm.handleSubmit ai trips) c w in
  let w' := world_after (PlannerForm.handleSubmit ai trips) c w in
  (∀ existingTrip,
     List.find (λ t, bool_decide (prop t "id" = VStr tid)) trips = Some existingTrip →
     ∃ t, log w' = (log w ++ [EUpdateTrip t])%list
          ∧ (∀ k v, form_of c !! k = Some v → t !! k = Some v)
          ∧ (∀ k, form_of c !! k = None → t !! k = existingTrip !! k)
          ∧ (form_of c !! "id" = None → t !! "id" = Some (VStr tid)))
  ∧ (List.find (λ t, bool_decide (prop t "id" = VStr tid)) trips = None →
     log w' = log w)
  ∧ c' = closed_form c.
Proof.
  intros Hm [Hs He] Hed c' w'. subst c' w'. unfold ui_after, world_after.
  rewrite handleSubmit_manual by done. rewrite Hs, He, Hed. simpl.
  split; [|split].
  - intros existingTrip Hf. rewrite Hf. simpl. eexists. split; [reflexivity|].
    split; [|split].
    + intros k v Hk. by rewrite lookup_union, Hk, union_Some_l.
    + intros k Hk. rewrite lookup_union, Hk. by rewrite (left_id None _).
    + intros Hk. rewrite lookup_union, Hk, (left_id None _).
      apply find_some in Hf as [_ Hid]. apply bool_decide_eq_true in Hid.
      unfold prop in Hid. destruct (existingTrip !! "id") as [v|]; simpl in Hid;
        by subst.
  - by intros ->.
  - by destruct (List.find _ trips).
Qed.

Lemma submit_without_dates_does_nothing_witness :
  run (PlannerForm.handleSubmit (mret ()) [tripA100]) cellsBlank world0
  = (Returned None, (cellsBlank, world0)).
Proof.
  apply submit_without_dates_does_nothing; [reflexivity | by left].
Defined.

Lemma submit_updates_only_the_form_fields_witness :
  ∃ t, log (world_after (PlannerForm.handleSubmit (mret ()) [tripB50; tripA100])
              cellsEditA world0) = [EUpdateTrip t]
       ∧ t !! "id" = Some (VStr "A")
       ∧ t !! "budget" = Some (VNum 300).
Proof.
  destruct (submit_updates_only_the_form_fields (mret ()) [tripB50; tripA100]
              cellsEditA world0 "A") as (Hupd & _ & _);
    [reflexivity | by split | reflexivity |].
  destruct (Hupd tripA100) as (t & Hlog & Hform & _ & Hid); [reflexivity|].
  exists t. split; [exact Hlog|]. split.
  - apply Hid. reflexivity.
  - apply Hform. reflexivity.
Defined.

(** X23: submitting the form with no trip being edited creates a trip whose
    id is [Date.now()] in decimal, with status ['future'], an empty
    itinerary and the title, location, dates, description and budget of the
    form, and resets the form. *)
Theorem submit_creates_a_fresh_trip
    (ai : M PlannerForm.Cells unit) (trips : list Trip)
    (c : PlannerForm.Cells) (w : World) :
  PlannerForm.plannerMode c = PlannerForm.Manual →
  has_dates (form_of c) →
  Planner.editing (PlannerForm.planner c) = None →
  form_of c !! "id" = None →
  ∃ t, run (PlannerForm.handleSubmit ai trips) c w
       = (Returned (Some t), (closed_form c, w))
       ∧ t !! "id" = Some (VStr (pretty (clock w)))
       ∧ t !! "status" = Some (VStr "future")
       ∧ t !! "itinerary" = Some (VJson "{}")
       ∧ prop t "budget" = prop (form_of c) "budget"
       ∧ (∀ k, k ∈ ["title"; "location"; "startDate"; "endDate"; "description"] →
               t !! k = form_of c !! k).
Proof.
  intros Hm [Hs He] Hed Hid. unfold run. rewrite handleSubmit_manual by done.
  rewrite Hs, He, Hed. simpl. eexists. split; [reflexivity|].
  unfold PlannerForm.newTrip. repeat split.
  - rewrite !lookup_insert_ne by done.
    by rewrite lookup_union, Hid, lookup_singleton_eq.
  - rewrite !lookup_insert_ne by done. by rewrite lookup_insert_eq.
  - rewrite !lookup_insert_ne by done. by rewrite lookup_insert_eq.
  - unfold prop at 1. by rewrite lookup_insert_eq.
  - intros k Hk.
    assert (Hcases : k = "title" ∨ k = "location" ∨ k = "startDate"
                     ∨ k = "endDate" ∨ k = "description").
    { rewrite !elem_of_cons in Hk. rewrite elem_of_nil in Hk. tauto. }
    assert (Hne : k ≠ "id") by (destruct Hcases as [->|[->|[->|[->| ->]]]]; done).
    rewrite !lookup_insert_ne
      by (destruct Hcases as [->|[->|[->|[->| ->]]]]; done).
    rewrite lookup_union, lookup_singleton_ne by done.
    by rewrite (right_id None _).
Qed.

Lemma submit_creates_a_fresh_trip_witness :
  ∃ t, (run (PlannerForm.handleSubmit (mret ()) [tripA100]) cellsNew world0).1
       = Returned (Some t)
       ∧ t !! "id" = Some (VStr "0") ∧ t !! "title" = Some (VStr "Alps, again").
Proof.
  destruct (submit_creates_a_fresh_trip (mret ()) [tripA100] cellsNew world0)
    as (t & Hrun & Hid & _ & _ & _ & Hform);
    [reflexivity | by split | reflexivity | reflexivity |].
  exists t. rewrite Hrun. split; [reflexivity|]. split; [exact Hid|].
  rewrite Hform; [reflexivity|]. by left.
Defined.

(** X24: opening a trip in the form and submitting at once hands back the
    same trip, field by field, but for a missing or falsy budget, which
    becomes 0. *)
Theorem edit_then_submit_returns_the_trip
    (ai : M PlannerForm.Cells unit) (trip : Trip) (trips : list Trip)
    (tid : string) (c : PlannerForm.Cells) (w : World) :
  trip !! "id" = Some (VStr tid) → tid ≠ "" →
  List.find (λ t, bool_decide (prop t "id" = VStr tid)) trips = Some trip →
  has_dates trip →
  ∃ t, log (world_after (edit_then_submit ai trip trips) c w)
       = (log w ++ [EUpdateTrip t])%list
       ∧ (∀ k, k ≠ "budget" → prop t k = prop trip k)
       ∧ prop t "budget" = or_else (prop trip "budget") (VNum 0).
Proof.
  intros Hid Hne Hfind [Hs He].
  assert (Hed : PlannerForm.id_of trip = Some tid).
  { unfold PlannerForm.id_of, prop. by rewrite Hid. }
  unfold world_after, edit_then_submit, PlannerForm.handleEditClick.
  unfold mbind, M_bind, bind, set_ui. cbn -[Planner.formOf].
  rewrite handleSubmit_manual by done. unfold form_of. cbn -[Planner.formOf].
  assert (Hstart : prop (Planner.formOf trip) "startDate" = prop trip "startDate")
    by reflexivity.
  assert (Hend : prop (Planner.formOf trip) "endDate" = prop trip "endDate")
    by reflexivity.
  rewrite Hstart, Hend, Hs, He. cbn -[Planner.formOf].
  unfold Planner.editing. cbn -[Planner.formOf]. rewrite Hed.
  apply String.eqb_neq in Hne. rewrite Hne, Hfind. cbn -[Planner.formOf].
  eexists. split; [reflexivity|]. split.
  - intros k Hk. unfold prop at 1. rewrite lookup_union.
    destruct (decide (k = "title")) as [->|?].
    { replace (Planner.formOf trip !! "title")
        with (Some (prop trip "title")) by reflexivity.
      by rewrite union_Some_l. }
    destruct (decide (k = "location")) as [->|?].
    { replace (Planner.formOf trip !! "location")
        with (Some (prop trip "location")) by reflexivity.
      by rewrite union_Some_l. }
    destruct (decide (k = "startDate")) as [->|?].
    { replace (Planner.formOf trip !! "startDate")
        with (Some (prop trip "startDate")) by reflexivity.
      by rewrite union_Some_l. }
    destruct (decide (k = "endDate")) as [->|?].
    { replace (Planner.formOf trip !! "endDate")
        with (Some (prop trip "endDate")) by reflexivity.
      by rewrite union_Some_l. }
    destruct (decide (k = "description")) as [->|?].
    { replace (Planner.formOf trip !! "description")
        with (Some (prop trip "description")) by reflexivity.
      by rewrite union_Some_l. }
    unfold Planner.formOf.
    rewrite !lookup_insert_ne by done. rewrite lookup_singleton_ne by done.
    by rewrite (left_id None _).
  - unfold prop at 1. rewrite lookup_union.
    replace (Planner.formOf trip !! "budget")
      with (Some (or_else (prop trip "budget") (VNum 0))) by reflexivity.
    by rewrite union_Some_l.
Qed.

Lemma edit_then_submit_returns_the_trip_witness :
  ∃ t, log (world_after (edit_then_submit (mret ()) tripC [tripA100; tripC])
              cellsBlank world0) = [EUpdateTrip t]
       ∧ prop t "itinerary" = VJson "{}"
       ∧ prop t "budget" = VNum 0.
Proof.
  destruct (edit_then_submit_returns_the_trip (mret ()) tripC [tripA100; tripC] "C"
              cellsBlank world0) as (t & Hlog & Hsame & Hbudget);
    [reflexivity | discriminate | reflexivity | by split |].
  exists t. split; [exact Hlog|]. split.
  - rewrite Hsame; [reflexivity | discriminate].
  - rewrite Hbudget. reflexivity.
Defined.

(** *** Picking the dates *)

Lemma ltb_leb (a b : string) : String.ltb a b = true → String.leb a b = true.
Proof. unfold String.ltb, String.leb. by destruct (String.compare a b). Qed.

Lemma not_ltb_leb (a b : string) : String.ltb a b = false → String.leb b a = true.
Proof.
  unfold String.ltb, String.leb. rewrite (String.compare_antisym a b).
  by destruct (String.compare b a).
Qed.

Lemma ltb_irrefl (a : string) : String.ltb a a = false.
Proof.
  unfold String.ltb. pose proof (String.compare_antisym a a) as H.
  destruct (String.compare a a); done.
Qed.

(** X25: a click on a calendar day changes the two dates of the form and,
    when it completes a range, closes the calendar; the world, every other
    cell and every other field of the form stay as they were. It leaves a
    start date that is text and either no end date, with the clicked day as
    start and the calendar as it was, or an end date not before the start
    date, with the clicked day as one of the two and the calendar closed. *)
Theorem date_click_keeps_the_range_ordered
    (date : PlannerForm.JsDate) (c : PlannerForm.Cells) (w : World) :
  (truthy (prop (form_of c) "startDate") = true →
     ∃ a, prop (form_of c) "startDate" = VStr a) →
  let dateStr := PlannerForm.toLocalISOString date in
  let c' := ui_after (PlannerForm.handleDateClick date) c w in
  world_after (PlannerForm.handleDateClick date) c w = w
  ∧ PlannerForm.planner c'
    = Planner.setFormState (form_of c') (PlannerForm.planner c)
  ∧ PlannerForm.showForm c' = PlannerForm.showForm c
  ∧ PlannerForm.plannerMode c' = PlannerForm.plannerMode c
  ∧ PlannerForm.searchQuery c' = PlannerForm.searchQuery c
  ∧ (∀ k, k ≠ "startDate" → k ≠ "endDate" → form_of c' !! k = form_of c !! k)
  ∧ ∃ a, prop (form_of c') "startDate" = VStr a
      ∧ ((a = dateStr ∧ prop (form_of c') "endDate" = VStr ""
          ∧ PlannerForm.showCalendar c' = PlannerForm.showCalendar c)
         ∨ (∃ b, prop (form_of c') "endDate" = VStr b
                 ∧ String.leb a b = true
                 ∧ (a = dateStr ∨ b = dateStr)
                 ∧ PlannerForm.showCalendar c' = false)).
Proof.
  intros Htext dateStr c'. subst c'.
  unfold ui_after, world_after, PlannerForm.handleDateClick, form_of in *.
  unfold mbind, M_bind, bind, get_ui, set_ui.
  cbn -[PlannerForm.toLocalISOString]. fold dateStr.
  set (form := Planner.formState (PlannerForm.planner c)) in *.
  assert (Hframe2 : ∀ (u v : JsVal) k, k ≠ "startDate" → k ≠ "endDate" →
            <["endDate" := u]> (<["startDate" := v]> form) !! k = form !! k).
  { intros u v k Hs He. by rewrite !lookup_insert_ne. }
  assert (Hframe1 : ∀ (u : JsVal) k, k ≠ "startDate" → k ≠ "endDate" →
            <["endDate" := u]> form !! k = form !! k).
  { intros u k Hs He. by rewrite lookup_insert_ne. }
  destruct (truthy (prop form "startDate")) eqn:Hs;
    cbn -[PlannerForm.toLocalISOString].
  - destruct (Htext eq_refl) as [a0 Ha0]. rewrite Ha0.
    destruct (truthy (prop form "endDate")) eqn:He;
      cbn -[PlannerForm.toLocalISOString].
    + do 5 (split; [done|]). split; [by apply Hframe2|].
      exists dateStr. unfold prop.
      rewrite lookup_insert_ne, !lookup_insert_eq by done. split; [done|].
      by left.
    + destruct (String.ltb dateStr a0) eqn:Hlt;
        cbn -[PlannerForm.toLocalISOString]; (do 5 (split; [done|])).
      * split; [by apply Hframe2|].
        exists dateStr. unfold prop.
        rewrite lookup_insert_ne, !lookup_insert_eq by done. split; [done|].
        right. exists a0. repeat split; auto using ltb_leb.
      * split; [by apply Hframe1|].
        exists a0. unfold prop.
        rewrite lookup_insert_ne, lookup_insert_eq by done.
        fold (prop form "startDate"). rewrite Ha0. split; [done|].
        right. exists dateStr. repeat split; auto using not_ltb_leb.
  - do 5 (split; [done|]). split; [by apply Hframe2|].
    exists dateStr. unfold prop.
    rewrite lookup_insert_ne, !lookup_insert_eq by done. split; [done|].
    by left.
Qed.

Lemma date_click_keeps_the_range_ordered_witness :
  let c1 := ui_after (PlannerForm.handleDateClick (PlannerForm.mkDate 2024 4 10))
              cellsBlank world0 in
  let c2 := ui_after (PlannerForm.handleDateClick (PlannerForm.mkDate 2024 4 3))
              c1 world0 in
  (∃ a, prop (form_of c2) "startDate" = VStr a
        ∧ prop (form_of c2) "endDate" = VStr "2024-05-10")
  ∧ form_of c2 !! "budget" = Some (VNum 1000)
  ∧ PlannerForm.showForm c2 = true.
Proof.
  intros c1 c2.
  destruct (date_click_keeps_the_range_ordered (PlannerForm.mkDate 2024 4 3) c1 world0)
    as (_ & _ & Hform & _ & _ & Hkeep & a & Ha & _).
  - intros _. by exists "2024-05-10".
  - split; [|split].
    + exists a. split; [exact Ha | reflexivity].
    + fold c2 in Hkeep. rewrite Hkeep; [reflexivity | discriminate | discriminate].
    + fold c2 in Hform. rewrite Hform. reflexivity.
Defined.

(** X26: a day shown as inside the range is not shown as selected: it lies
    strictly between the start and the end date. *)
Theorem in_range_days_are_not_selected (form : gmap string JsVal) (dateStr : string) :
  PlannerForm.isInRange form dateStr = true →
  PlannerForm.isSelected form dateStr = false
  ∧ ∃ a b, prop form "startDate" = VStr a ∧ prop form "endDate" = VStr b
           ∧ String.ltb a dateStr = true ∧ String.ltb dateStr b = true.
Proof.
  unfold PlannerForm.isInRange, PlannerForm.isSelected.
  destruct (negb _ || negb _); [discriminate|].
  destruct (prop form "startDate") as [| | | |a|]; try discriminate.
  destruct (prop form "endDate") as [| | | |b|]; simpl;
    rewrite ?andb_false_r; try discriminate.
  intros H. apply andb_true_iff in H as [Hgt Hlt]. split.
  - rewrite !bool_decide_eq_false_2; [done | |].
    + intros [= ->]. by rewrite ltb_irrefl in Hlt.
    + intros [= ->]. by rewrite ltb_irrefl in Hgt.
  - by exists a, b.
Qed.

Lemma in_range_days_are_not_selected_witness :
  PlannerForm.isSelected formFilled "2024-05-05" = false.
Proof. apply in_range_days_are_not_selected. reflexivity. Defined.

(** ** The usage counter *)

Lemma digit_val_pretty_N_char (d : N) :
  (d < 10)%N →
  is_digit (pretty_N_char d) = true
  ∧ GeminiService.digit_val (pretty_N_char d) = Z.of_N d.
Proof.
  intros Hd.
  assert (Hcases : d ∈ [0; 1; 2; 3; 4; 5; 6; 7; 8; 9]%N).
  { rewrite !elem_of_cons. lia. }
  rewrite !elem_of_cons, elem_of_nil in Hcases.
  destruct Hcases as [->|[->|[->|[->|[->|[->|[->|[->|[->|[->|[]]]]]]]]]]];
    by vm_compute.
Qed.

Lemma parse_digits_pretty_N_go (x : N) (s : string) :
  GeminiService.parse_digits 0 (pretty_N_go x s)
  = GeminiService.parse_digits (Z.of_N x) s.
Proof.
  revert s. induction (N.lt_wf_0 x) as [x _ IH]; intros s.
  destruct (decide (0 < x)%N) as [Hpos|Hz].
  - rewrite pretty_N_go_step by done.
    rewrite IH by (apply N.div_lt; lia). simpl.
    destruct (digit_val_pretty_N_char (x `mod` 10)) as [-> ->].
    { apply N.mod_lt. lia. }
    f_equal. pose proof (N.div_mod x 10 ltac:(lia)) as Hdm. lia.
  - assert (x = 0%N) as -> by lia. by rewrite pretty_N_go_0.
Qed.

Lemma pretty_N_go_head (x : N) (s : string) :
  (0 < x)%N → ∃ c r, pretty_N_go x s = String c r ∧ is_digit c = true.
Proof.
  revert s. induction (N.lt_wf_0 x) as [x _ IH]; intros s Hpos.
  rewrite pretty_N_go_step by done.
  destruct (decide (0 < x `div` 10)%N) as [Hq|Hq].
  - apply IH; [apply N.div_lt; lia | done].
  - assert (Hz : (x `div` 10)%N = 0%N) by (apply N.le_0_r, N.nlt_ge, Hq).
    rewrite Hz, pretty_N_go_0.
    eexists _, _. split; [done|].
    apply digit_val_pretty_N_char, N.mod_lt. lia.
Qed.

Lemma parseInt_digits (c : ascii) (r : string) :
  is_digit c = true →
  GeminiService.parseInt (String c r)
  = Some (GeminiService.parse_digits 0 (String c r)).
Proof.
  intros Hc. unfold GeminiService.parseInt.
  destruct c as [[] [] [] [] [] [] [] []]; try discriminate Hc; reflexivity.
Qed.

Lemma parseInt_pretty (n : Z) :
  0 ≤ n → GeminiService.parseInt (pretty n) = Some n.
Proof.
  intros Hn. destruct n as [|p|p]; [reflexivity| |lia].
  change (pretty (Z.pos p)) with (pretty_N_go (N.pos p) "").
  destruct (pretty_N_go_head (N.pos p) "") as (c & r & Heq & Hc); [lia|].
  rewrite Heq, parseInt_digits by done. rewrite <- Heq.
  by rewrite parse_digits_pretty_N_go.
Qed.

Lemma pretty_nonneg_not_empty (n : Z) : 0 ≤ n → pretty n ≠ "".
Proof.
  intros Hn E. destruct n as [|p|p]; [discriminate | | lia].
  change (pretty (Z.pos p)) with (pretty_N_go (N.pos p) "") in E.
  destruct (pretty_N_go_head (N.pos p) "") as (c & r & Heq & _); [lia|].
  congruence.
Qed.

Lemma getUsageCount_eq {UI} (u : UI) (w : World) :
  GeminiService.getUsageCount (u, w)
  = (Returned (stored_count (localStorage w !! GeminiService.STORAGE_KEY_GEMINI_COUNT)),
     (u, w)).
Proof. reflexivity. Qed.

Lemma incrementUsage_eq {UI} (u : UI) (w : World) :
  let key := GeminiService.STORAGE_KEY_GEMINI_COUNT in
  let next := GeminiService.num_toString
                ((λ n, n + 1) <$> stored_count (localStorage w !! key)) in
  GeminiService.incrementUsage (u, w)
  = (Returned (),
     (u, with_log (λ l, l ++ [EStorageSet key next])%list
           (with_localStorage (λ m, <[key := next]> m) w))).
Proof. reflexivity. Qed.

Lemma stored_count_pretty (n : Z) : 0 ≤ n → stored_count (Some (pretty n)) = Some n.
Proof.
  intros Hn. unfold stored_count, str_or. simpl.
  destruct (String.eqb (pretty n) "") eqn:E.
  - apply String.eqb_eq in E. by apply pretty_nonneg_not_empty in E.
  - by apply parseInt_pretty.
Qed.

(** X27: the usage counter reads 0 when nothing or the empty string is
    stored; for a count below 2^53, where numbers are exact integers, an
    increment stores the decimal of the count plus one, which reads back as
    that number; a stored text that is no number reads as [NaN] and an
    increment leaves [NaN] stored. *)
Theorem usage_counter_counts (w : World) :
  let key := GeminiService.STORAGE_KEY_GEMINI_COUNT in
  let count (w : World) := (@GeminiService.getUsageCount unit ((), w)).1 in
  let w' := world_after (@GeminiService.incrementUsage unit) () w in
  ((localStorage w !! key = None ∨ localStorage w !! key = Some "") →
     count w = Returned (Some 0) ∧ count w' = Returned (Some 1))
  ∧ (∀ n, 0 ≤ n < 2 ^ 53 → localStorage w !! key = Some (pretty n) →
       count w = Returned (Some n) ∧ count w' = Returned (Some (n + 1)))
  ∧ (count w = Returned None →
       localStorage w' !! key = Some "NaN" ∧ count w' = Returned None).
Proof.
  intros key count w'. subst count w'. unfold world_after.
  rewrite incrementUsage_eq, !getUsageCount_eq. fold key.
  cbn [fst snd localStorage with_log with_localStorage].
  rewrite lookup_insert_eq. split; [|split].
  - by intros [-> | ->].
  - intros n [Hn _] ->. rewrite stored_count_pretty by done. split; [done|].
    cbn [fmap option_fmap option_map GeminiService.num_toString].
    by rewrite stored_count_pretty by lia.
  - intros [= ->]. done.
Qed.

Lemma usage_counter_counts_witness :
  (@GeminiService.getUsageCount unit
     ((), world_after (@GeminiService.incrementUsage unit) () world_counted)).1
  = Returned (Some 42)
  ∧ (@GeminiService.getUsageCount unit
       ((), world_after (@GeminiService.incrementUsage unit) () world_fresh)).1
    = Returned (Some 1).
Proof.
  destruct (usage_counter_counts world_counted) as (_ & Hn & _).
  destruct (usage_counter_counts world_fresh) as (H0 & _ & _).
  split.
  - apply (Hn 41); [lia | reflexivity].
  - apply H0. by left.
Defined.

Lemma saveEditedId_unverified_id_not_adopted_witness :
  Settings.syncId (ui_after Settings.saveEditedId settingsNew world_down) = "SYNC"
  ∧ Settings.isSyncing (ui_after Settings.saveEditedId settingsNew world_down) = false.
Proof.
  destruct (saveEditedId_unverified_id_not_adopted settingsNew world_down)
    as (_ & Hid & _ & Hsync & _).
  - repeat split; try (by vm_compute). vm_compute. lia.
  - reflexivity.
  - split; [exact Hid | exact Hsync].
Defined.

Lemma saveEditedId_free_id_asks_too_witness :
  log (world_after Settings.saveEditedId settingsNew world0)
  = [EFetch "NEW-ID" true; EConfirm (Settings.availableMsg "NEW-ID") true;
     EStorageSet Settings.SYNC_ID_KEY "NEW-ID"]
  ∧ Settings.syncId (ui_after Settings.saveEditedId settingsNew world0) = "NEW-ID".
Proof.
  destruct (saveEditedId_free_id_asks_too settingsNew world0) as (Hlog & Hid & _).
  - repeat split; try (by vm_compute). vm_compute. lia.
  - reflexivity.
  - reflexivity.
  - split; [exact Hlog | exact Hid].
Defined.

Lemma resaving_the_identifier_is_silent_witness :
  world_after edit_and_save (ui_after Settings.saveEditedId settingsNew world0)
    (world_after Settings.saveEditedId settingsNew world0)
  = world_after Settings.saveEditedId settingsNew world0.
Proof.
  destruct (resaving_the_identifier_is_silent settingsNew world0) as (Hw & _).
  - by vm_compute.
  - exact Hw.
Defined.

Lemma shown_identifier_is_the_stored_one_witness :
  persisted (ui_after Settings.saveEditedId settingsNew world_stored)
            (world_after Settings.saveEditedId settingsNew world_stored)
  ∧ Settings.syncId (ui_after Settings.saveEditedId settingsNew world_stored) = "NEW-ID".
Proof.
  destruct (shown_identifier_is_the_stored_one settingsNew world_stored onlyA "0.abc" "")
    as (Hsave & _); [reflexivity|].
  split; [exact Hsave | reflexivity].
Defined.
